(** * oscd-subscriber-lb-nr: the NR value/quality subscriber plugin

    A shallow embedding of [src/oscd-subscriber-lb-nr.ts] and the
    properties of its pairing predicates and of its two [oscd-edit]
    listeners.

    - [Dom]: the part of the DOM the plugin touches (attributes, tag
      names, next sibling, closest ancestor, deep clone).
    - [Js]: the string and array primitives the predicates are built on
      ([split], [slice], [JSON.stringify]).
    - [Pairing]: [isfcdaPairWithQuality] and [extRefMatchNR].
    - [Plugin]: [shouldListen], [captureMetadata],
      [modifyValueAndQualityPair], [processNRExtRef] and
      [modifyAdditionalExtRefs], over the lookups of
      [foundation/subscription] taken as section variables.
    - [Settings]: the [enabled] initialiser, [run] and the Close handler
      of the dialog, over [localStorage]. *)

From Stdlib Require Import Ascii String.
From stdpp Require Import base option list strings gmap.

Local Open Scope string_scope.
Local Open Scope list_scope.

Set Warnings "-register-all".

(** ** The DOM as the plugin sees it *)

Module Dom.

(** An XML element with its attribute map and its child elements. Text
    nodes are left out: no DOM call of the plugin observes them
    ([nextElementSibling] skips them). *)
Inductive Tree : Type :=
| Node (tag : string) (attrs : gmap string string) (kids : list Tree).

Definition tree_tag (t : Tree) : string := let 'Node n _ _ := t in n.
Definition tree_attrs (t : Tree) : gmap string string := let 'Node _ a _ := t in a.
Definition tree_kids (t : Tree) : list Tree := let 'Node _ _ k := t in k.

(** One step of the path from an element up to the root of its tree: the
    parent's tag and attributes, the element siblings before (nearest
    first) and after. *)
Record Frame : Type := mkFrame {
  ftag : string;
  fattrs : gmap string string;
  lefts : list Tree;
  rights : list Tree;
}.

(** An [Element] is a position in a tree: the subtree in focus and the
    frames up to the root. A detached element has no frame. *)
Record Element : Type := mkElement {
  ctx : list Frame;
  focus : Tree;
}.

Definition plug (f : Frame) (t : Tree) : Tree :=
  Node (ftag f) (fattrs f) (rev_append (lefts f) (t :: rights f)).

Definition tagName (e : Element) : string := tree_tag (focus e).

Definition getAttribute (name : string) (e : Element) : option string :=
  tree_attrs (focus e) !! name.

Definition hasAttribute (name : string) (e : Element) : bool :=
  match getAttribute name e with Some _ => true | None => false end.

Definition parentElement (e : Element) : option Element :=
  match ctx e with
  | [] => None
  | f :: up => Some (mkElement up (plug f (focus e)))
  end.

Definition nextElementSibling (e : Element) : option Element :=
  match ctx e with
  | [] => None
  | f :: up =>
      match rights f with
      | [] => None
      | t :: rest =>
          Some (mkElement (mkFrame (ftag f) (fattrs f) (focus e :: lefts f) rest :: up) t)
      end
  end.

(** [closest sel] for a type selector: the element itself or its nearest
    ancestor whose tag is [sel]. *)
Fixpoint closest_from (sel : string) (up : list Frame) (t : Tree) : option Element :=
  if String.eqb (tree_tag t) sel then Some (mkElement up t)
  else match up with
       | [] => None
       | f :: up' => closest_from sel up' (plug f t)
       end.

Definition closest (sel : string) (e : Element) : option Element :=
  closest_from sel (ctx e) (focus e).

(** [doc.importNode(e, true)]: a copy of the whole subtree, owned by the
    document but attached nowhere. *)
Definition importNode (e : Element) : Element := mkElement [] (focus e).

(** [e.children]: each child with its place under [e]. *)
Fixpoint children_from (tag : string) (attrs : gmap string string) (up : list Frame)
    (ls rs : list Tree) : list Element :=
  match rs with
  | [] => []
  | t :: rest =>
      mkElement (mkFrame tag attrs ls rest :: up) t
      :: children_from tag attrs up (t :: ls) rest
  end.

Definition children (e : Element) : list Element :=
  let 'Node tag attrs kids := focus e in
  children_from tag attrs (ctx e) [] kids.

(** The descendant reached by taking child [i] at each step of [path]. *)
Fixpoint descend (path : list nat) (e : Element) : option Element :=
  match path with
  | [] => Some e
  | i :: path' => children e !! i ≫= descend path'
  end.

End Dom.

(** ** JavaScript strings and arrays *)

Module Js.

(** A string is the sequence of the bytes of its UTF-8 form. The code
    looks for ['.'], ['q'] and, in [JSON.stringify], for the quote, the
    backslash and the control characters: all of them ASCII, which no
    byte of a longer UTF-8 sequence is, so splitting, taking the last
    character and escaping agree with what JavaScript does on code
    units. *)

(** [s.split(sep)] for a one-character separator. *)
Fixpoint split (sep : ascii) (s : string) : list string :=
  match s with
  | EmptyString => [EmptyString]
  | String c s' =>
      if Ascii.eqb c sep then EmptyString :: split sep s'
      else match split sep s' with
           | [] => [String c EmptyString]
           | seg :: segs => String c seg :: segs
           end
  end.

(** [s.slice(-n)] on a string: its last [n] characters, all of it when it
    is shorter. *)
Definition string_slice_end (n : nat) (s : string) : string :=
  let start := String.length s - n in
  substring start (String.length s - start) s.

(** [xs.slice(0, stop)] and [xs.slice(-n)] on an array. *)
Definition slice_to {A} (stop : nat) (xs : list A) : list A := take stop xs.
Definition slice_end {A} (n : nat) (xs : list A) : list A := drop (length xs - n) xs.

Definition quote : ascii := "034"%char.
Definition backslash : ascii := "092"%char.

Definition hexdigit (n : nat) : ascii :=
  match n with
  | 0 => "0" | 1 => "1" | 2 => "2" | 3 => "3" | 4 => "4" | 5 => "5"
  | 6 => "6" | 7 => "7" | 8 => "8" | 9 => "9" | 10 => "a" | 11 => "b"
  | 12 => "c" | 13 => "d" | 14 => "e" | _ => "f"
  end%char.

(** The escape of one character inside a JSON string. *)
Definition escape_char (c : ascii) : string :=
  let n := nat_of_ascii c in
  if Ascii.eqb c quote then String backslash (String quote EmptyString)
  else if Ascii.eqb c backslash then String backslash (String backslash EmptyString)
  else if Nat.eqb n 8 then String backslash "b"
  else if Nat.eqb n 9 then String backslash "t"
  else if Nat.eqb n 10 then String backslash "n"
  else if Nat.eqb n 12 then String backslash "f"
  else if Nat.eqb n 13 then String backslash "r"
  else if Nat.ltb n 32 then
    String backslash (String "u" (String "0" (String "0"
      (String (hexdigit (n / 16)) (String (hexdigit (n mod 16)) EmptyString)))))
  else String c EmptyString.

Fixpoint escape (s : string) : string :=
  match s with
  | EmptyString => EmptyString
  | String c s' => escape_char c ++ escape s'
  end.

Definition stringify_string (s : string) : string :=
  String quote (escape s ++ String quote EmptyString).

Fixpoint join_comma (xs : list string) : string :=
  match xs with
  | [] => EmptyString
  | [x] => x
  | x :: rest => x ++ "," ++ join_comma rest
  end.

(** [JSON.stringify(xs)] for an array of strings. *)
Definition JSON_stringify (xs : list string) : string :=
  "[" ++ join_comma (map stringify_string xs) ++ "]".

(** Reading back one escaped character from the front of a string, as
    [JSON.parse] does: the inverse of [escape_char], used to show that
    [JSON_stringify] tells arrays apart. *)
Definition hexvalue (c : ascii) : option nat :=
  let n := nat_of_ascii c in
  if Nat.leb 48 n && Nat.leb n 57 then Some (n - 48)
  else if Nat.leb 97 n && Nat.leb n 102 then Some (n - 87)
  else None.

Definition unescape_char (s : string) : option (ascii * string) :=
  match s with
  | EmptyString => None
  | String c rest =>
      if Ascii.eqb c quote then None
      else if Ascii.eqb c backslash then
        match rest with
        | String "u" (String "0" (String "0" (String h (String l rest')))) =>
            hi ← hexvalue h; lo ← hexvalue l; Some (ascii_of_nat (16 * hi + lo), rest')
        | String e rest' =>
            if Ascii.eqb e quote then Some (quote, rest')
            else if Ascii.eqb e backslash then Some (backslash, rest')
            else if Ascii.eqb e "b" then Some ("008"%char, rest')
            else if Ascii.eqb e "t" then Some ("009"%char, rest')
            else if Ascii.eqb e "n" then Some ("010"%char, rest')
            else if Ascii.eqb e "f" then Some ("012"%char, rest')
            else if Ascii.eqb e "r" then Some ("013"%char, rest')
            else None
        | EmptyString => None
        end
      else Some (c, rest)
  end.

End Js.

(** ** Pairing predicates *)

Module Pairing.
Import Dom.

(** [x === y] on the results of [getAttribute] ([null] or a string). *)
Definition strict_eq (x y : option string) : bool := bool_decide (x = y).

Definition addressing : list string :=
  ["ldInst"; "prefix"; "lnClass"; "lnInst"; "doName"; "daName"].

Definition isfcdaPairWithQuality (a b : Element) : bool :=
  forallb
    (fun attr =>
       strict_eq (getAttribute attr a) (getAttribute attr b)
       || (String.eqb attr "daName"
           && strict_eq
                (d ← getAttribute "daName" b; head (Js.slice_end 1 (Js.split "." d)))
                (Some "q")))
    addressing.

Definition extRefMatchNR (a b : Element) : bool :=
  let aParts := Js.split "." <$> getAttribute "intAddr" a in
  let bParts := Js.split "." <$> getAttribute "intAddr" b in
  match aParts, bParts with
  | Some aParts, Some bParts =>
      String.eqb
        (Js.JSON_stringify (Js.slice_to (length aParts - 1) aParts))
        (Js.JSON_stringify (Js.slice_to (length bParts - 1) bParts))
      && match bParts !! (length bParts - 1) with
         | Some seg => String.eqb (Js.string_slice_end 1 seg) "q"
         | None => false
         end
  | _, _ => false
  end.

End Pairing.

(** ** The plugin: effects, state and the two listeners *)

Module Plugin.
Import Dom Pairing.

(** The edits of open-scd-core: [Insert | Update | Remove | Edit[]]. Only
    [Update] is looked into; [Complex] is the array case. An attribute
    value of an update is a string, or [null] to remove the attribute. *)
Inductive Edit : Type :=
| Insert (parent node : Element) (reference : option Element)
| Update (element : Element) (attributes : gmap string (option string))
| Remove (node : Element)
| Complex (edits : list Edit).

(** [xs.flat(Infinity)]: arrays are spliced in at every depth. *)
Fixpoint flat_edit (edit : Edit) : list Edit :=
  match edit with
  | Complex edits => edits ≫= flat_edit
  | _ => [edit]
  end.

Definition flat (xs : list Edit) : list Edit := xs ≫= flat_edit.

(** An [oscd-edit] event as a listener reads it: the first entry of
    [composedPath()] when it is an [Element], and [detail]. *)
Record EditEvent : Type := mkEditEvent {
  initiatingTarget : option Element;
  detail : Edit;
}.

Definition shouldListen (event : EditEvent) : bool :=
  match initiatingTarget event with
  | Some target =>
      strict_eq (getAttribute "identity" target)
                (Some "danyill.oscd-subscriber-later-binding")
      && hasAttribute "allowexternalplugins" target
  | None => false
  end.

(** The fields of [SubscriberLaterBindingNR] the listeners read or write. *)
Record Component : Type := mkComponent {
  enabled : bool;
  preEventExtRef : list (option Element);
  ignoreSupervision : bool;
}.

(** The entry [captureMetadata] stores for one flattened edit. *)
Definition snapshot (edit : Edit) : option Element :=
  match edit with
  | Update element _ =>
      if String.eqb (tagName element) "ExtRef" then Some (importNode element) else None
  | _ => None
  end.

(** [isUpdate(edit) && edit.element.tagName === 'ExtRef'], the test both
    listeners start from. *)
Definition updatesExtRef (edit : Edit) : bool :=
  match edit with
  | Update element _ => String.eqb (tagName element) "ExtRef"
  | _ => false
  end.

Definition captureMetadata (event : EditEvent) (this : Component) : Component :=
  if shouldListen event then
    let flatEdits := flat [detail event] in
    {| enabled := enabled this;
       preEventExtRef := map snapshot flatEdits;
       ignoreSupervision :=
         from_option (hasAttribute "ignoresupervision") false (initiatingTarget event) |}
  else this.

(** *** Effects

    What a method does besides returning: the edits it dispatches, built by
    scl-lib's [subscribe] and [unsubscribe] (kept as the arguments they were
    called with), and its calls of [findFCDAs], the one lookup that is handed
    a value the code has not checked to be an element. A method returns or
    throws. *)
Inductive Request : Type :=
| subscribe (sink fcda controlBlock : Element)
| unsubscribe (extRefs : list Element).

Inductive Effect : Type :=
| FindFCDAs (arg : option Element)
| DispatchEvent (edit : Request).

Inductive Outcome (A : Type) : Type :=
| Returned (a : A)
| Thrown.
Arguments Returned {A} a.
Arguments Thrown {A}.

Record Run (A : Type) : Type := mkRun {
  effects : list Effect;
  outcome : Outcome A;
}.
Arguments mkRun {A} effects outcome.
Arguments effects {A} r.
Arguments outcome {A} r.

#[export] Instance Run_ret : MRet Run := λ A a, mkRun [] (Returned a).
#[export] Instance Run_bind : MBind Run := λ A B k m,
  match outcome m with
  | Returned a => mkRun (effects m ++ effects (k a)) (outcome (k a))
  | Thrown => mkRun (effects m) Thrown
  end.

(** [this.dispatchEvent(newEditEvent(edit))]. The new event starts at the
    component itself, which does not carry the identity [shouldListen]
    asks for, so the component's own listeners let it pass and its fields
    are as before when the call returns. *)
Definition dispatchEvent (edit : Request) : Run unit :=
  mkRun [DispatchEvent edit] (Returned tt).

(** The edits dispatched in a run, in order. *)
Definition dispatched {A} (r : Run A) : list Request :=
  omap (λ e, match e with DispatchEvent edit => Some edit | _ => None end) (effects r).

(** [xs.forEach((x, index) => f(x, index))]. *)
Fixpoint forEach_from {A} (f : A → nat → Run unit) (index : nat) (xs : list A) : Run unit :=
  match xs with
  | [] => mret tt
  | x :: rest => f x index ;; forEach_from f (S index) rest
  end.

Definition forEach {A} (f : A → nat → Run unit) (xs : list A) : Run unit :=
  forEach_from f 0 xs.

Section Methods.

(** The lookups of [foundation/subscription/subscription.js], read-only
    over the document. On elements they are total; [findFCDAs_null] is
    whatever [findFCDAs] does when it is handed [null] or [undefined],
    which its signature rules out and [preEventExtRef!] lets through: it
    may throw, return an array, or return [undefined] ([None]). *)
Variable isSubscribed : Element → bool.
Variable findFCDAs : Element → list Element.
Variable findControlBlock : Element → option Element.
Variable findFCDAs_null : Outcome (option (list Element)).

Definition call_findFCDAs (arg : option Element) : Run (option (list Element)) :=
  mkRun [FindFCDAs arg]
        match arg with
        | Some extRef => Returned (Some (findFCDAs extRef))
        | None => findFCDAs_null
        end.

(** [preEventExtRef && isSubscribed(preEventExtRef)]. *)
Definition wasSubscribed (preEventExtRef : option Element) : bool :=
  from_option isSubscribed false preEventExtRef.

Definition modifyValueAndQualityPair
    (firstExtRef : Element) (preEventExtRef : option Element) (firstFcda : Element)
  : Run unit :=
  let controlBlock := findControlBlock firstExtRef in
  let nextFcda := nextElementSibling firstFcda in
  let nextExtRef := nextElementSibling firstExtRef in
  match nextFcda, nextExtRef with
  | Some nextFcda, Some nextExtRef =>
      let wasSubscribed := wasSubscribed preEventExtRef in
      if extRefMatchNR firstExtRef nextExtRef
         && isfcdaPairWithQuality firstFcda nextFcda
      then
        match negb wasSubscribed && isSubscribed firstExtRef, controlBlock with
        | true, Some controlBlock => dispatchEvent (subscribe nextExtRef nextFcda controlBlock)
        | _, _ => mret tt
        end ;;
        if wasSubscribed && negb (isSubscribed firstExtRef)
        then dispatchEvent (unsubscribe [nextExtRef])
        else mret tt
      else mret tt
  | _, _ => mret tt
  end.

Definition processNRExtRef (extRef : Element) (preEventExtRef : option Element)
  : Run unit :=
  if negb (isSubscribed extRef)
     && from_option (λ prior, negb (isSubscribed prior)) false preEventExtRef
  then mret tt
  else
    fcdas ← (if isSubscribed extRef
             then call_findFCDAs (Some extRef)
             else call_findFCDAs preEventExtRef);
    match fcdas ≫= head with
    | None => mret tt
    | Some firstFcda => modifyValueAndQualityPair extRef preEventExtRef firstFcda
    end.

(** [edit.element?.closest('IED')?.getAttribute('manufacturer')]. *)
Definition manufacturer (element : Element) : option string :=
  closest "IED" element ≫= getAttribute "manufacturer".

(** The callback of [flatEdits.forEach] in [modifyAdditionalExtRefs].
    [process] is [this.processNRExtRef], [snapshots] is
    [this.preEventExtRef]; an index past its end reads [undefined]. *)
Definition reactTo (process : Element → option Element → Run unit)
    (snapshots : list (option Element)) (edit : Edit) (index : nat) : Run unit :=
  match edit with
  | Update element _ =>
      if String.eqb (tagName element) "ExtRef"
         && strict_eq (manufacturer element) (Some "NRR")
      then process element (mjoin (snapshots !! index))
      else mret tt
  | _ => mret tt
  end.

(** The component after the call, and what the call did. When the loop
    throws, the two assignments after it are not reached. *)
Definition modifyAdditionalExtRefs (event : EditEvent) (this : Component)
  : Component * Run unit :=
  if negb (enabled this) then (this, mret tt)
  else
    let flatEdits := flat [detail event] in
    let loop := forEach (reactTo processNRExtRef (preEventExtRef this)) flatEdits in
    match outcome loop with
    | Returned _ =>
        ({| enabled := enabled this; preEventExtRef := []; ignoreSupervision := false |},
         loop)
    | Thrown => (this, loop)
    end.

(** The two window listeners of the constructor. *)
Definition onCapture (event : EditEvent) (this : Component) : Component :=
  captureMetadata event this.

Definition onBubble (event : EditEvent) (this : Component) : Component * Run unit :=
  if shouldListen event then modifyAdditionalExtRefs event this
  else (this, mret tt).

(** One dispatch of an [oscd-edit] event through the window: the capturing
    listener runs on the way down, before the editor has applied the edit,
    the bubbling one on the way up, after. [before] and [after] are the
    event as read at those two moments: the same object, whose elements
    have changed in between. *)
Definition roundTrip (before after : EditEvent) (this : Component)
  : Component * Run unit :=
  onBubble after (onCapture before this).

End Methods.

End Plugin.

(** ** A small substation

    A publisher with a data set of two FCDAs (a status value and its
    quality) and an NR subscriber with two adjacent ExtRefs, used to run
    the definitions on concrete inputs below. *)

Module Substation.
Import Dom Pairing Plugin.

Definition fcda (daName : string) : Tree :=
  Node "FCDA"
       (list_to_map [("ldInst", "LD0"); ("lnClass", "GGIO"); ("lnInst", "1");
                     ("doName", "Ind1"); ("daName", daName); ("fc", "ST")])
       [].

Definition gse : Tree :=
  Node "GSEControl" (list_to_map [("name", "GSE1"); ("datSet", "ds")]) [].

Definition publisher : Tree :=
  Node "IED" (list_to_map [("name", "Pub"); ("manufacturer", "ACME")])
       [Node "DataSet" {[ "name" := "ds" ]} [fcda "stVal"; fcda "q"]; gse].

(** An ExtRef: bound to the publisher's [Ind1] when [bound], free
    otherwise. *)
Definition extRef (intAddr : string) (bound : bool) : Tree :=
  Node "ExtRef"
       (list_to_map
          (("intAddr", intAddr)
           :: if bound
              then [("iedName", "Pub"); ("ldInst", "LD0"); ("lnClass", "GGIO");
                    ("lnInst", "1"); ("doName", "Ind1"); ("srcCBName", "GSE1")]
              else []))
       [].

Definition subscriber (vendor : string) (first : Tree) : Tree :=
  Node "IED" (list_to_map [("name", "Sub"); ("manufacturer", vendor)])
       [Node "Inputs" ∅ [first; extRef "RxExtIn1.q" false]].

Definition scl (vendor : string) (first : Tree) : Element :=
  mkElement [] (Node "SCL" ∅ [publisher; subscriber vendor first]).

Definition at_path (path : list nat) (doc : Element) : Element :=
  default doc (descend path doc).

(** The document with the first ExtRef free, and with it bound. *)
Definition docFree : Element := scl "NRR" (extRef "RxExtIn1.stVal" false).
Definition docBound : Element := scl "NRR" (extRef "RxExtIn1.stVal" true).
Definition docOther : Element := scl "ACME" (extRef "RxExtIn1.stVal" true).

Definition extRefA (doc : Element) : Element := at_path [1; 0; 0] doc.
Definition extRefB (doc : Element) : Element := at_path [1; 0; 1] doc.
Definition fcdaA (doc : Element) : Element := at_path [0; 0; 0] doc.
Definition fcdaB (doc : Element) : Element := at_path [0; 0; 1] doc.
Definition gseOf (doc : Element) : Element := at_path [0; 1] doc.

(** Stand-ins for the lookups of [foundation/subscription]: an ExtRef is
    subscribed when it names a source IED, and then its FCDAs are the
    status value of the publisher's data set. *)
Definition isSubscribed (e : Element) : bool := hasAttribute "iedName" e.
Definition findFCDAs (e : Element) : list Element :=
  if isSubscribed e then [fcdaA docBound] else [].
Definition findControlBlock (e : Element) : option Element :=
  if isSubscribed e then Some (gseOf docBound) else None.
Definition noControlBlock (e : Element) : option Element := None.

(** The later-binding plugin, with and without the opt-in. *)
Definition laterBinding : Element :=
  mkElement []
    (Node "oscd-plugin"
          (list_to_map [("identity", "danyill.oscd-subscriber-later-binding");
                        ("allowexternalplugins", EmptyString);
                        ("ignoresupervision", EmptyString)])
          []).
Definition laterBindingClosed : Element :=
  mkElement []
    (Node "oscd-plugin" {[ "identity" := "danyill.oscd-subscriber-later-binding" ]} []).

Definition binding : gmap string (option string) :=
  list_to_map [("iedName", Some "Pub"); ("ldInst", Some "LD0"); ("lnClass", Some "GGIO");
               ("lnInst", Some "1"); ("doName", Some "Ind1"); ("srcCBName", Some "GSE1")].

Definition unbinding : gmap string (option string) := const None <$> binding.

(** Subscribing the first ExtRef, with an unrelated removal riding along
    in a nested array: the event before and after the editor applied it. *)
Definition subscribeBefore : EditEvent :=
  mkEditEvent (Some laterBinding)
    (Complex [Complex [Remove (gseOf docFree)]; Update (extRefA docFree) binding]).
Definition subscribeAfter : EditEvent :=
  mkEditEvent (Some laterBinding)
    (Complex [Complex [Remove (gseOf docBound)]; Update (extRefA docBound) binding]).

Definition idle (on : bool) : Component :=
  {| enabled := on; preEventExtRef := []; ignoreSupervision := false |}.

Definition detached (t : Tree) : Element := mkElement [] t.

(** Two FCDAs that carry a functional constraint and nothing else. *)
Definition bareST : Element := detached (Node "FCDA" {[ "fc" := "ST" ]} []).
Definition bareMX : Element := detached (Node "FCDA" {[ "fc" := "MX" ]} []).

(** The first ExtRef before it was unbound, as [captureMetadata] keeps it. *)
Definition priorBound : Element := importNode (extRefA docBound).

End Substation.

(** ** The settings dialog

    The part of the component behind its dialog: the [enabled] field is
    read from [localStorage] when the component is built, [run] shows the
    dialog, and the Close button stores the switch back. *)

Module Settings.
Import Dom Pairing Plugin.

(** [localStorage]: [getItem] is lookup, [setItem] is insert. *)
Definition storageKey : string := "oscd-subscriber-lb-nr".

(** The field initialiser
    [localStorage.getItem('oscd-subscriber-lb-nr') === 'true'], with the
    other two fields as declared. *)
Definition construct (localStorage : gmap string string) : Component :=
  {| enabled := strict_eq (localStorage !! storageKey) (Some "true");
     preEventExtRef := [];
     ignoreSupervision := false |}.

(** The switch as the handler reads it: [selected] is the property of the
    current mwc-switch, [checked] the one of older versions; a property
    the element does not have reads [undefined]. *)
Record Switch : Type := mkSwitch {
  selected : option bool;
  checked : option bool;
}.

(** [x ?? y]. *)
Definition nullish {A} (x : option A) (y : A) : A := default y x.

(** [`${b}`] for a boolean. *)
Definition template (b : bool) : string := if b then "true" else "false".

(** The page around the component: the store and the dialog, which is
    there once rendered ([Some open]) and absent before ([None]). *)
Record Page : Type := mkPage {
  component : Component;
  localStorage : gmap string string;
  dialogUI : option bool;
}.

(** [run()]: [if (this.dialogUI) this.dialogUI.show()]. *)
Definition run (page : Page) : Page :=
  {| component := component page;
     localStorage := localStorage page;
     dialogUI := const true <$> dialogUI page |}.

(** The [@click] handler of the Close button. *)
Definition onClose (enabledUI : Switch) (page : Page) : Page :=
  let enabled' := nullish (selected enabledUI) (nullish (checked enabledUI) false) in
  {| component :=
       {| enabled := enabled';
          preEventExtRef := preEventExtRef (component page);
          ignoreSupervision := ignoreSupervision (component page) |};
     localStorage := <[storageKey := template enabled']> (localStorage page);
     dialogUI := const false <$> dialogUI page |}.

End Settings.

(** ** Joining segments *)

Module Segments.

(** [xs.join('.')], the way back from [split('.')]; the code has no call
    of it, the properties of [split] are stated with it. *)
Fixpoint join (xs : list string) : string :=
  match xs with
  | [] => EmptyString
  | [x] => x
  | x :: rest => x ++ String "." (join rest)
  end.

End Segments.

(** * Properties *)

(** ** Strings *)

Module JsFacts.
Import Js.

#[local] Arguments String.append : simpl nomatch.

Lemma split_not_nil sep s : split sep s ≠ [].
Proof.
  destruct s as [|c s]; simpl; [done|].
  destruct (Ascii.eqb c sep); [done|].
  by destruct (split sep s).
Qed.

Lemma length_split_pos sep s : 0 < length (split sep s).
Proof.
  pose proof (split_not_nil sep s) as H.
  destruct (split sep s); simpl; [done | lia].
Qed.

Lemma substring_past_prefix (p s : string) n :
  substring (String.length p) n (p ++ s) = substring 0 n s.
Proof. induction p as [|c p IH]; simpl; [done | apply IH]. Qed.

Lemma length_string_app (p s : string) :
  String.length (p ++ s) = String.length p + String.length s.
Proof. induction p as [|c p IH]; simpl; [done | by rewrite IH]. Qed.

Lemma string_slice_end_snoc (p : string) (c : ascii) :
  string_slice_end 1 (p ++ String c EmptyString) = String c EmptyString.
Proof.
  unfold string_slice_end. rewrite length_string_app. simpl.
  replace (String.length p + 1 - 1) with (String.length p) by lia.
  replace (String.length p + 1 - String.length p) with 1 by lia.
  by rewrite substring_past_prefix.
Qed.

Lemma string_app_assoc (a b c : string) : ((a ++ b) ++ c = a ++ (b ++ c))%string.
Proof. induction a as [|x a IH]; simpl; [done | by rewrite IH]. Qed.

(** [unescape_char] undoes [escape_char], whatever follows. *)
Lemma unescape_escape_char c (rest : string) :
  unescape_char (escape_char c ++ rest) = Some (c, rest).
Proof. destruct c as [[] [] [] [] [] [] [] []]; reflexivity. Qed.

Lemma unescape_quote (rest : string) : unescape_char (String quote rest) = None.
Proof. reflexivity. Qed.

(** An escaped string is read back unambiguously up to the closing quote. *)
Lemma escape_closed_inj s : ∀ s' (r r' : string),
  (escape s ++ String quote r = escape s' ++ String quote r')%string →
  s = s' ∧ r = r'.
Proof.
  induction s as [|c s IH]; intros [|c' s'] r r' H; simpl in H.
  - by injection H.
  - apply (f_equal unescape_char) in H.
    rewrite string_app_assoc, unescape_escape_char in H. done.
  - apply (f_equal unescape_char) in H.
    rewrite string_app_assoc, unescape_escape_char in H. done.
  - apply (f_equal unescape_char) in H.
    rewrite !string_app_assoc, !unescape_escape_char in H.
    injection H as -> H. by destruct (IH _ _ _ H) as [-> ->].
Qed.

Lemma stringify_string_inj s s' (r r' : string) :
  (stringify_string s ++ r = stringify_string s' ++ r')%string → s = s' ∧ r = r'.
Proof.
  unfold stringify_string. simpl. intros H. injection H as H.
  rewrite !string_app_assoc in H. simpl in H. by apply escape_closed_inj in H.
Qed.

Lemma string_cons_app_inj c (a a' b b' : string) :
  (String c a ++ b = String c a' ++ b')%string → (a ++ b = a' ++ b')%string.
Proof. intros H. by injection H. Qed.

Lemma join_comma_cons x y ys :
  join_comma (x :: y :: ys) = (x ++ String "," (join_comma (y :: ys)))%string.
Proof. done. Qed.

Lemma join_comma_inj xs : ∀ ys,
  (join_comma (map stringify_string xs) ++ "]"
   = join_comma (map stringify_string ys) ++ "]")%string →
  xs = ys.
Proof.
  induction xs as [|x xs IH]; intros [|y ys] H.
  - done.
  - destruct ys; simpl in H; discriminate.
  - destruct xs; simpl in H; discriminate.
  - destruct xs as [|x' xs], ys as [|y' ys].
    + simpl in H. by apply stringify_string_inj in H as [-> _].
    + cbn [map] in H. rewrite join_comma_cons, string_app_assoc in H. simpl in H.
      apply stringify_string_inj in H as [_ H]. discriminate.
    + cbn [map] in H. rewrite join_comma_cons, string_app_assoc in H. simpl in H.
      apply stringify_string_inj in H as [_ H]. discriminate.
    + cbn [map] in H. rewrite !join_comma_cons, !string_app_assoc in H.
      apply stringify_string_inj in H as [-> H].
      apply string_cons_app_inj in H. f_equal. by apply (IH (y' :: ys)).
Qed.

(** [JSON.stringify] maps different arrays of strings to different texts,
    so comparing the texts compares the arrays. *)
Lemma JSON_stringify_inj xs ys : JSON_stringify xs = JSON_stringify ys → xs = ys.
Proof.
  unfold JSON_stringify. intros H. injection H as H. by apply join_comma_inj.
Qed.

Lemma JSON_stringify_eqb xs ys :
  String.eqb (JSON_stringify xs) (JSON_stringify ys) = bool_decide (xs = ys).
Proof.
  destruct (String.eqb_spec (JSON_stringify xs) (JSON_stringify ys)) as [H|H].
  - apply JSON_stringify_inj in H. by rewrite bool_decide_eq_true_2.
  - rewrite bool_decide_eq_false_2; [done|]. by intros ->.
Qed.

Lemma lookup_last_snoc {A} (xs : list A) (x : A) :
  (xs ++ [x]) !! (length (xs ++ [x]) - 1) = Some x.
Proof.
  rewrite length_app. simpl.
  replace (length xs + 1 - 1) with (length xs) by lia.
  by rewrite list_lookup_middle.
Qed.

End JsFacts.

(** ** The pairing predicates *)

Module PairingFacts.
Import Dom Pairing.

Lemma strict_eq_refl x : strict_eq x x = true.
Proof. by apply bool_decide_eq_true. Qed.

Lemma strict_eq_true x y : strict_eq x y = true ↔ x = y.
Proof. apply bool_decide_eq_true. Qed.

Lemma strict_eq_false x y : strict_eq x y = false ↔ x ≠ y.
Proof. apply bool_decide_eq_false. Qed.

(** What [extRefMatchNR] computes once both addresses are there. *)
Lemma extRefMatchNR_present a b sa sb :
  getAttribute "intAddr" a = Some sa →
  getAttribute "intAddr" b = Some sb →
  extRefMatchNR a b =
    String.eqb
      (Js.JSON_stringify (take (length (Js.split "." sa) - 1) (Js.split "." sa)))
      (Js.JSON_stringify (take (length (Js.split "." sb) - 1) (Js.split "." sb)))
    && from_option (λ seg, String.eqb (Js.string_slice_end 1 seg) "q") false
         (Js.split "." sb !! (length (Js.split "." sb) - 1)).
Proof.
  intros Ha Hb. unfold extRefMatchNR. rewrite Ha, Hb. simpl.
  unfold Js.slice_to. by destruct (_ !! _).
Qed.

Lemma extRefMatchNR_missing_l a b :
  getAttribute "intAddr" a = None → extRefMatchNR a b = false.
Proof. intros Ha. unfold extRefMatchNR. by rewrite Ha. Qed.

Lemma extRefMatchNR_missing_r a b :
  getAttribute "intAddr" b = None → extRefMatchNR a b = false.
Proof.
  intros Hb. unfold extRefMatchNR. rewrite Hb.
  by destruct (getAttribute "intAddr" a).
Qed.

(** [extRefMatchNR] answers [true] exactly when both addresses are there,
    their segments before the last one are the same, and the last segment
    of the second ends in [q]. *)
Lemma extRefMatchNR_true a b :
  extRefMatchNR a b = true ↔
  ∃ sa sb seg,
    getAttribute "intAddr" a = Some sa
    ∧ getAttribute "intAddr" b = Some sb
    ∧ take (length (Js.split "." sa) - 1) (Js.split "." sa)
      = take (length (Js.split "." sb) - 1) (Js.split "." sb)
    ∧ last (Js.split "." sb) = Some seg
    ∧ Js.string_slice_end 1 seg = "q".
Proof.
  split.
  - intros H.
    destruct (getAttribute "intAddr" a) as [sa|] eqn:Ha;
      [|by rewrite extRefMatchNR_missing_l in H].
    destruct (getAttribute "intAddr" b) as [sb|] eqn:Hb;
      [|by rewrite extRefMatchNR_missing_r in H].
    rewrite (extRefMatchNR_present _ _ _ _ Ha Hb) in H.
    apply andb_true_iff in H as [Hpre Hlast].
    rewrite JsFacts.JSON_stringify_eqb in Hpre.
    apply bool_decide_eq_true in Hpre.
    destruct (Js.split "." sb !! (length (Js.split "." sb) - 1)) as [seg|] eqn:Hseg;
      [|done].
    cbn [from_option] in Hlast. apply String.eqb_eq in Hlast.
    exists sa, sb, seg. repeat split; try done.
    by rewrite last_lookup, <- Nat.sub_1_r.
  - intros (sa & sb & seg & Ha & Hb & Hpre & Hseg & Hq).
    rewrite (extRefMatchNR_present _ _ _ _ Ha Hb), Hpre, String.eqb_refl.
    rewrite last_lookup, <- Nat.sub_1_r in Hseg. rewrite Hseg. simpl.
    by rewrite Hq.
Qed.

(** C2: on the addresses [RxExtIn1;/Ind/stVal] and [RxExtIn2;/Ind/q]
    [extRefMatchNR] answers [true], not [false]: neither address holds a
    ['.'], so each splits into one segment, the two sequences before the
    last segment are both empty, and the second address ends in [q]. *)
Theorem extRefMatchNR_slash_addresses a b :
  getAttribute "intAddr" a = Some "RxExtIn1;/Ind/stVal" →
  getAttribute "intAddr" b = Some "RxExtIn2;/Ind/q" →
  extRefMatchNR a b = true
  ∧ Js.split "." "RxExtIn1;/Ind/stVal" = ["RxExtIn1;/Ind/stVal"]
  ∧ Js.split "." "RxExtIn2;/Ind/q" = ["RxExtIn2;/Ind/q"].
Proof.
  intros Ha Hb. rewrite (extRefMatchNR_present _ _ _ _ Ha Hb).
  repeat split; vm_compute; reflexivity.
Qed.

(** C10: two elements with the same [intAddr], whose last segment ends in
    [q], match: the addresses need not differ and nothing asks the first
    one for a value tag. *)
Theorem extRefMatchNR_same_address a b addr (segs : list string) (seg : string) :
  getAttribute "intAddr" a = Some addr →
  getAttribute "intAddr" b = Some addr →
  Js.split "." addr = segs ++ [(seg ++ "q")%string] →
  extRefMatchNR a b = true.
Proof.
  intros Ha Hb Hsplit. rewrite (extRefMatchNR_present _ _ _ _ Ha Hb).
  rewrite String.eqb_refl. simpl.
  rewrite Hsplit, JsFacts.lookup_last_snoc. simpl.
  by rewrite JsFacts.string_slice_end_snoc.
Qed.

Lemma isfcdaPairWithQuality_true a b :
  isfcdaPairWithQuality a b = true ↔
  ∀ attr, attr ∈ addressing →
    getAttribute attr a = getAttribute attr b
    ∨ (attr = "daName"
       ∧ (d ← getAttribute "daName" b; head (Js.slice_end 1 (Js.split "." d)))
         = Some "q").
Proof.
  unfold isfcdaPairWithQuality. rewrite forallb_forall. split.
  - intros H attr Hin. apply list_elem_of_In in Hin.
    specialize (H attr Hin). apply orb_true_iff in H as [H|H].
    + left. by apply strict_eq_true.
    + right. apply andb_true_iff in H as [H1 H2].
      apply String.eqb_eq in H1. by apply strict_eq_true in H2.
  - intros H attr Hin. apply list_elem_of_In in Hin.
    apply orb_true_iff. destruct (H attr Hin) as [Heq|[-> Hq]].
    + left. by apply strict_eq_true.
    + right. apply andb_true_iff. split; [done | by apply strict_eq_true].
Qed.

(** C3, on the code: two elements with none of the six addressing
    attributes are answered [true], not [false]. The second has no
    [daName], so no quality attribute; the [daName] test passes on its
    first disjunct alone, [null === null], where the doc comment of the
    function asks the second element for a quality attribute. *)
Theorem isfcdaPairWithQuality_absent a b :
  (∀ attr, attr ∈ addressing →
     getAttribute attr a = None ∧ getAttribute attr b = None) →
  isfcdaPairWithQuality a b = true.
Proof.
  intros H. apply isfcdaPairWithQuality_true. intros attr Hin.
  destruct (H attr Hin) as [-> ->]. by left.
Qed.

Lemma isfcdaPairWithQuality_one_sided a b attr :
  attr ∈ addressing → attr ≠ "daName" →
  getAttribute attr a ≠ getAttribute attr b →
  isfcdaPairWithQuality a b = false.
Proof.
  intros Hin Hda Hne. apply not_true_is_false. intros Ht.
  destruct (proj1 (isfcdaPairWithQuality_true a b) Ht attr Hin) as [?|[? _]]; done.
Qed.

End PairingFacts.

(** ** The effect monad *)

Module RunFacts.
Import Plugin.

Lemma effects_bind {A B} (m : Run A) (k : A → Run B) :
  effects (m ≫= k) =
  effects m ++ match outcome m with Returned a => effects (k a) | Thrown => [] end.
Proof.
  unfold mbind, Run_bind. destruct (outcome m); simpl; [done|].
  by rewrite app_nil_r.
Qed.

Lemma outcome_bind {A B} (m : Run A) (k : A → Run B) :
  outcome (m ≫= k) =
  match outcome m with Returned a => outcome (k a) | Thrown => Thrown end.
Proof. unfold mbind, Run_bind. by destruct (outcome m). Qed.

Lemma ret_bind {A B} (a : A) (k : A → Run B) : mret a ≫= k = k a.
Proof. unfold mbind, Run_bind, mret, Run_ret. simpl. by destruct (k a). Qed.

Lemma bind_ret {A} (m : Run A) : m ≫= mret = m.
Proof.
  unfold mbind, Run_bind, mret, Run_ret. destruct m as [es [a|]]; simpl; [|done].
  by rewrite app_nil_r.
Qed.

Lemma bind_assoc {A B C} (m : Run A) (f : A → Run B) (g : B → Run C) :
  (m ≫= f) ≫= g = m ≫= (λ a, f a ≫= g).
Proof.
  unfold mbind, Run_bind. destruct m as [es [a|]]; simpl; [|done].
  destruct (f a) as [es' [b|]]; simpl; [|done].
  by rewrite app_assoc.
Qed.

Lemma forEach_from_app {A} (f : A → nat → Run unit) xs ys :
  ∀ index,
    forEach_from f index (xs ++ ys) =
    (forEach_from f index xs ;; forEach_from f (index + length xs) ys).
Proof.
  induction xs as [|x xs IH]; intros index; cbn [forEach_from app length].
  - by rewrite ret_bind, Nat.add_0_r.
  - rewrite IH, bind_assoc.
    by replace (index + S (length xs)) with (S index + length xs) by lia.
Qed.

(** A loop whose every step returns without effect does nothing. *)
Lemma forEach_from_skip {A} (f : A → nat → Run unit) xs :
  ∀ index,
    (∀ i x, xs !! i = Some x → f x (index + i) = mret tt) →
    forEach_from f index xs = mret tt.
Proof.
  induction xs as [|x xs IH]; intros index Hf; simpl; [done|].
  rewrite <- (Nat.add_0_r index) at 1. rewrite (Hf 0 x eq_refl), ret_bind.
  apply IH. intros i y Hy.
  replace (S index + i) with (index + S i) by lia. by apply Hf.
Qed.

(** A loop whose every step returns runs to its end. *)
Lemma forEach_from_returns {A} (f : A → nat → Run unit) xs :
  ∀ index,
    (∀ i x, xs !! i = Some x → outcome (f x (index + i)) = Returned tt) →
    outcome (forEach_from f index xs) = Returned tt.
Proof.
  induction xs as [|x xs IH]; intros index Hf; simpl; [done|].
  rewrite outcome_bind.
  rewrite <- (Nat.add_0_r index) at 1. rewrite (Hf 0 x eq_refl).
  apply IH. intros i y Hy.
  replace (S index + i) with (index + S i) by lia. by apply Hf.
Qed.

End RunFacts.

(** ** The DOM *)

Module DomFacts.
Import Dom.

(** [importNode] is a deep clone: same tag, same attributes, same
    subtree, and no parent or sibling. *)
Lemma importNode_deep e :
  let c := importNode e in
  tagName c = tagName e
  ∧ (∀ name, getAttribute name c = getAttribute name e)
  ∧ focus c = focus e
  ∧ parentElement c = None
  ∧ nextElementSibling c = None.
Proof. done. Qed.

Lemma closest_self sel e : tagName e = sel → closest sel e = Some e.
Proof.
  intros H. unfold closest, tagName in *. destruct e as [up t]; simpl in *.
  destruct up; simpl; by rewrite H, String.eqb_refl.
Qed.

End DomFacts.

(** ** The methods of the component *)

Module PluginFacts.
Import Dom Pairing Plugin RunFacts.

Section Methods.

Variable isSubscribed : Element → bool.
Variable findFCDAs : Element → list Element.
Variable findControlBlock : Element → option Element.
Variable findFCDAs_null : Outcome (option (list Element)).

Abbreviation modifyValueAndQualityPair :=
  (Plugin.modifyValueAndQualityPair isSubscribed findControlBlock).
Abbreviation processNRExtRef :=
  (Plugin.processNRExtRef isSubscribed findFCDAs findControlBlock findFCDAs_null).
Abbreviation modifyAdditionalExtRefs :=
  (Plugin.modifyAdditionalExtRefs isSubscribed findFCDAs findControlBlock findFCDAs_null).
Abbreviation onBubble :=
  (Plugin.onBubble isSubscribed findFCDAs findControlBlock findFCDAs_null).
Abbreviation roundTrip :=
  (Plugin.roundTrip isSubscribed findFCDAs findControlBlock findFCDAs_null).
Abbreviation wasSubscribed := (Plugin.wasSubscribed isSubscribed).

(** *** Value/quality propagation *)

(** The body of [modifyValueAndQualityPair] once both siblings are found
    and form a pair. *)
Lemma modifyValueAndQualityPair_pair firstExtRef prior firstFcda nextExtRef nextFcda :
  nextElementSibling firstExtRef = Some nextExtRef →
  nextElementSibling firstFcda = Some nextFcda →
  extRefMatchNR firstExtRef nextExtRef = true →
  isfcdaPairWithQuality firstFcda nextFcda = true →
  modifyValueAndQualityPair firstExtRef prior firstFcda =
    (match negb (wasSubscribed prior) && isSubscribed firstExtRef,
           findControlBlock firstExtRef with
     | true, Some controlBlock => dispatchEvent (subscribe nextExtRef nextFcda controlBlock)
     | _, _ => mret tt
     end ;;
     if wasSubscribed prior && negb (isSubscribed firstExtRef)
     then dispatchEvent (unsubscribe [nextExtRef])
     else mret tt).
Proof.
  intros HE HF HmE HmF. unfold Plugin.modifyValueAndQualityPair.
  by rewrite HE, HF, HmE, HmF.
Qed.

(** [modifyValueAndQualityPair] always returns. *)
Lemma modifyValueAndQualityPair_returns firstExtRef prior firstFcda :
  outcome (modifyValueAndQualityPair firstExtRef prior firstFcda) = Returned tt.
Proof.
  unfold Plugin.modifyValueAndQualityPair.
  destruct (nextElementSibling firstFcda), (nextElementSibling firstExtRef); try done.
  destruct (extRefMatchNR _ _ && isfcdaPairWithQuality _ _); [|done].
  destruct (wasSubscribed prior), (isSubscribed firstExtRef),
    (findControlBlock firstExtRef); done.
Qed.

(** With the subscription state as it was there is nothing to pass on. *)
Lemma modifyValueAndQualityPair_unchanged firstExtRef prior firstFcda :
  wasSubscribed prior = isSubscribed firstExtRef →
  modifyValueAndQualityPair firstExtRef prior firstFcda = mret tt.
Proof.
  intros Hsame. unfold Plugin.modifyValueAndQualityPair.
  destruct (nextElementSibling firstFcda), (nextElementSibling firstExtRef); try done.
  destruct (extRefMatchNR _ _ && isfcdaPairWithQuality _ _); [|done].
  rewrite Hsame.
  destruct (isSubscribed firstExtRef), (findControlBlock firstExtRef); done.
Qed.

Lemma modifyValueAndQualityPair_dispatched_le firstExtRef prior firstFcda :
  (length (dispatched (modifyValueAndQualityPair firstExtRef prior firstFcda)) ≤ 1)%nat.
Proof.
  unfold Plugin.modifyValueAndQualityPair, dispatched.
  destruct (nextElementSibling firstFcda), (nextElementSibling firstExtRef);
    try (simpl; lia).
  destruct (extRefMatchNR _ _ && isfcdaPairWithQuality _ _); [|simpl; lia].
  destruct (wasSubscribed prior), (isSubscribed firstExtRef),
    (findControlBlock firstExtRef); simpl; lia.
Qed.

(** C5: one call of [modifyValueAndQualityPair] returns after no dispatch,
    after one subscribe, or after one unsubscribe; never after both. *)
Theorem modifyValueAndQualityPair_at_most_one firstExtRef prior firstFcda :
  let run := modifyValueAndQualityPair firstExtRef prior firstFcda in
  outcome run = Returned tt
  ∧ (length (dispatched run) ≤ 1)%nat
  ∧ (effects run = []
     ∨ (∃ sink fcda controlBlock,
          effects run = [DispatchEvent (subscribe sink fcda controlBlock)]
          ∧ wasSubscribed prior = false ∧ isSubscribed firstExtRef = true)
     ∨ (∃ sink,
          effects run = [DispatchEvent (unsubscribe [sink])]
          ∧ wasSubscribed prior = true ∧ isSubscribed firstExtRef = false)).
Proof.
  split; [apply modifyValueAndQualityPair_returns|].
  unfold Plugin.modifyValueAndQualityPair, dispatched.
  destruct (nextElementSibling firstFcda) as [nextFcda|],
    (nextElementSibling firstExtRef) as [nextExtRef|];
    try by (split; [simpl; lia | left]).
  destruct (extRefMatchNR _ _ && isfcdaPairWithQuality _ _);
    [|by (split; [simpl; lia | left])].
  destruct (wasSubscribed prior) eqn:Hwas, (isSubscribed firstExtRef) eqn:Hnow,
    (findControlBlock firstExtRef) as [controlBlock|]; simpl;
    (split; [lia|]);
    first [ by left
          | by right; left; eexists _, _, _
          | by right; right; eexists ].
Qed.

(** C9: the unsubscribe for [nextExtRef] goes out whatever
    [findControlBlock] answers, also nothing; a subscribe goes out only
    with the control block [findControlBlock] gave. *)
Theorem unsubscribe_needs_no_controlBlock
    firstExtRef prior firstFcda nextExtRef nextFcda :
  nextElementSibling firstExtRef = Some nextExtRef →
  nextElementSibling firstFcda = Some nextFcda →
  extRefMatchNR firstExtRef nextExtRef = true →
  isfcdaPairWithQuality firstFcda nextFcda = true →
  let run := modifyValueAndQualityPair firstExtRef prior firstFcda in
  (wasSubscribed prior = true → isSubscribed firstExtRef = false →
   effects run = [DispatchEvent (unsubscribe [nextExtRef])])
  ∧ (∀ sink fcda controlBlock,
       DispatchEvent (subscribe sink fcda controlBlock) ∈ effects run →
       findControlBlock firstExtRef = Some controlBlock)
  ∧ (findControlBlock firstExtRef = None →
     wasSubscribed prior = false → isSubscribed firstExtRef = true →
     effects run = []).
Proof.
  intros HE HF HmE HmF run. subst run.
  rewrite (modifyValueAndQualityPair_pair _ _ _ _ _ HE HF HmE HmF).
  split; [|split].
  - intros -> ->. simpl. by destruct (findControlBlock firstExtRef).
  - intros sink fcda controlBlock.
    destruct (wasSubscribed prior), (isSubscribed firstExtRef),
      (findControlBlock firstExtRef) as [cb|]; simpl;
      rewrite ?elem_of_cons, ?elem_of_nil; intros Hin;
      repeat (destruct Hin as [Hin|Hin]); congruence || done.
  - by intros -> -> ->.
Qed.

(** *** Reconciliation of one ExtRef *)

(** With a snapshot at hand [processNRExtRef] hands [findFCDAs] an
    element, and returns. *)
Lemma processNRExtRef_returns extRef prior :
  outcome (processNRExtRef extRef (Some prior)) = Returned tt.
Proof.
  unfold Plugin.processNRExtRef. cbn [from_option].
  destruct (isSubscribed extRef) eqn:Hnow; cbn [negb andb].
  - rewrite outcome_bind. cbn [call_findFCDAs outcome mbind option_bind].
    destruct (head _); [apply modifyValueAndQualityPair_returns | done].
  - destruct (isSubscribed prior); cbn [negb]; [|done].
    rewrite outcome_bind. cbn [call_findFCDAs outcome mbind option_bind].
    destruct (head _); [apply modifyValueAndQualityPair_returns | done].
Qed.

(** No transition to react to: neither side is subscribed. *)
Lemma processNRExtRef_no_transition extRef prior :
  isSubscribed extRef = false → isSubscribed prior = false →
  processNRExtRef extRef (Some prior) = mret tt.
Proof. intros H1 H2. unfold Plugin.processNRExtRef. simpl. by rewrite H1, H2. Qed.

(** C1, on the code: with [extRef] unsubscribed and no snapshot the guard
    does not stop [processNRExtRef]. It goes on to call [findFCDAs] on
    the absent snapshot, and throws when that call does. Nothing is
    dispatched. *)
Theorem processNRExtRef_absent_prior extRef :
  isSubscribed extRef = false →
  let run := processNRExtRef extRef None in
  effects run = [FindFCDAs None]
  ∧ outcome run = match findFCDAs_null with
                  | Returned _ => Returned tt
                  | Thrown => Thrown
                  end.
Proof.
  intros Hnow run. subst run. unfold Plugin.processNRExtRef.
  rewrite Hnow. cbn [from_option negb andb].
  rewrite effects_bind, outcome_bind. cbn [call_findFCDAs outcome effects].
  destruct findFCDAs_null as [fcdas|]; [|done].
  destruct (fcdas ≫= head) as [firstFcda|]; [|done].
  by rewrite modifyValueAndQualityPair_unchanged.
Qed.

(** *** Capture *)

(** Flattening leaves no array behind. *)
Lemma flat_edit_plain :
  ∀ edit, Forall (λ e, match e with Complex _ => False | _ => True end) (flat_edit edit).
Proof.
  fix IH 1. intros [| | | edits].
  1-3: simpl; constructor; [exact I | constructor].
  simpl. induction edits as [|edit edits IHedits]; simpl; [constructor|].
  apply Forall_app. split; [apply IH | apply IHedits].
Qed.

Lemma flat_plain xs :
  Forall (λ e, match e with Complex _ => False | _ => True end) (flat xs).
Proof.
  unfold flat. induction xs as [|x xs IHxs]; simpl; [constructor|].
  apply Forall_app. split; [apply flat_edit_plain | apply IHxs].
Qed.

Lemma snapshot_updatesExtRef edit :
  snapshot edit =
  if updatesExtRef edit
  then match edit with Update element _ => Some (importNode element) | _ => None end
  else None.
Proof. destruct edit as [| element ? | |]; simpl; try done. Qed.

Lemma captureMetadata_open event this :
  shouldListen event = true →
  captureMetadata event this =
    {| enabled := enabled this;
       preEventExtRef := map snapshot (flat [detail event]);
       ignoreSupervision :=
         from_option (hasAttribute "ignoresupervision") false (initiatingTarget event) |}.
Proof. intros H. unfold captureMetadata. by rewrite H. Qed.

Lemma captureMetadata_closed event this :
  shouldListen event = false → captureMetadata event this = this.
Proof. intros H. unfold captureMetadata. by rewrite H. Qed.

(** C6: when [shouldListen] holds, the snapshot sequence is as long as the
    flattened edit list; at the index of an update of an ExtRef it holds
    the deep clone of that element, at every other index [null]. *)
Theorem captureMetadata_snapshots event this :
  shouldListen event = true →
  let flatEdits := flat [detail event] in
  let snapshots := preEventExtRef (captureMetadata event this) in
  length snapshots = length flatEdits
  ∧ ∀ i edit, flatEdits !! i = Some edit →
      (∀ element attributes,
         edit = Update element attributes → tagName element = "ExtRef" →
         snapshots !! i = Some (Some (importNode element)))
      ∧ (updatesExtRef edit = false → snapshots !! i = Some None).
Proof.
  intros Hlisten flatEdits snapshots. subst snapshots flatEdits.
  rewrite (captureMetadata_open _ _ Hlisten). cbn [preEventExtRef].
  split; [by rewrite length_map|].
  intros i edit Hi.
  change (map snapshot ?l) with (snapshot <$> l).
  rewrite list_lookup_fmap, Hi. simpl. split.
  - intros element attributes -> Htag. simpl. by rewrite Htag.
  - intros Hno. by rewrite snapshot_updatesExtRef, Hno.
Qed.

(** *** Reaction *)

Lemma modifyAdditionalExtRefs_disabled event this :
  enabled this = false → modifyAdditionalExtRefs event this = (this, mret tt).
Proof. intros H. unfold Plugin.modifyAdditionalExtRefs. by rewrite H. Qed.

Lemma modifyAdditionalExtRefs_returns event this :
  enabled this = true →
  outcome (forEach (reactTo processNRExtRef (preEventExtRef this)) (flat [detail event]))
  = Returned tt →
  modifyAdditionalExtRefs event this
  = ({| enabled := true; preEventExtRef := []; ignoreSupervision := false |},
     forEach (reactTo processNRExtRef (preEventExtRef this)) (flat [detail event])).
Proof.
  intros Hon Hret. unfold Plugin.modifyAdditionalExtRefs.
  rewrite Hon. cbn [negb]. by rewrite Hret.
Qed.

(** The component is reset exactly when the call returns while enabled. *)
Lemma modifyAdditionalExtRefs_outcome event this :
  let '(this', run) := modifyAdditionalExtRefs event this in
  match outcome run with
  | Returned _ =>
      this' = if enabled this
              then {| enabled := true; preEventExtRef := []; ignoreSupervision := false |}
              else this
  | Thrown => this' = this
  end.
Proof.
  unfold Plugin.modifyAdditionalExtRefs.
  destruct (enabled this) eqn:Hon; cbn [negb]; [|done].
  destruct (outcome (forEach _ _)) eqn:Hloop; by rewrite Hloop.
Qed.

(** C7: a disabled component dispatches nothing, whatever the
    notification holds, and [modifyAdditionalExtRefs] leaves it as it
    was; [captureMetadata] still records the snapshots of a notification
    that [shouldListen] lets through. *)
Theorem disabled_never_dispatches event this :
  enabled this = false →
  modifyAdditionalExtRefs event this = (this, mret tt)
  ∧ (∀ before, (roundTrip before event this).2 = mret tt)
  ∧ (shouldListen event = true →
     preEventExtRef (captureMetadata event this) = map snapshot (flat [detail event])
     ∧ enabled (captureMetadata event this) = false).
Proof.
  intros Hoff. split; [by apply modifyAdditionalExtRefs_disabled|]. split.
  - intros before. unfold Plugin.roundTrip, Plugin.onBubble, onCapture.
    destruct (shouldListen event); [|done].
    rewrite modifyAdditionalExtRefs_disabled; [done|].
    unfold captureMetadata. by destruct (shouldListen before).
  - intros Hlisten. by rewrite (captureMetadata_open _ _ Hlisten).
Qed.

Lemma reactTo_other_vendor process snapshots element attributes index :
  manufacturer element ≠ Some "NRR" →
  reactTo process snapshots (Update element attributes) index = mret tt.
Proof.
  intros Hne. unfold reactTo.
  apply PairingFacts.strict_eq_false in Hne. rewrite Hne.
  by rewrite andb_false_r.
Qed.

(** C8: an update of an element whose device is not of manufacturer [NRR]
    is stepped over. Its turn in the loop calls nothing, whatever
    [processNRExtRef] would do, so the loop over any flattened list runs
    as if the entry did no more than hold its index, and a notification
    made of that update alone has no effect. *)
Theorem other_vendor_never_reconciled element attributes :
  manufacturer element ≠ Some "NRR" →
  (∀ process snapshots index,
     reactTo process snapshots (Update element attributes) index = mret tt)
  ∧ (∀ process snapshots earlier later,
       forEach (reactTo process snapshots) (earlier ++ Update element attributes :: later)
       = (forEach (reactTo process snapshots) earlier ;;
          forEach_from (reactTo process snapshots) (S (length earlier)) later))
  ∧ (∀ target this,
       (modifyAdditionalExtRefs (mkEditEvent target (Update element attributes)) this).2
       = mret tt).
Proof.
  intros Hne. split; [|split].
  - intros. by apply reactTo_other_vendor.
  - intros process snapshots earlier later. unfold forEach.
    rewrite forEach_from_app. cbn [forEach_from].
    by rewrite reactTo_other_vendor, ret_bind, Nat.add_0_l.
  - intros target this. unfold Plugin.modifyAdditionalExtRefs.
    destruct (enabled this); cbn [negb snd]; [|done].
    change (flat [detail (mkEditEvent target (Update element attributes))])
      with [Update element attributes].
    unfold forEach. cbn [forEach_from].
    by rewrite reactTo_other_vendor, ret_bind.
Qed.

(** *** One notification, from capture to reaction *)

(** With a snapshot wherever the notification updates an ExtRef, every
    step of the loop returns. *)
Lemma reactTo_returns snapshots edits :
  updatesExtRef <$> edits = (λ o : option Element, bool_decide (is_Some o)) <$> snapshots →
  ∀ i edit, edits !! i = Some edit →
    outcome (reactTo processNRExtRef snapshots edit i) = Returned tt.
Proof.
  intros Hshape i edit Hi.
  assert ((updatesExtRef <$> edits) !! i = Some (updatesExtRef edit)) as Hu
    by by rewrite list_lookup_fmap, Hi.
  rewrite Hshape, list_lookup_fmap in Hu.
  destruct edit as [| element attributes | |]; try done. simpl in *.
  destruct (String.eqb (tagName element) "ExtRef"); [|done].
  destruct (strict_eq _ _); [|done]. simpl.
  destruct (snapshots !! i) as [[prior|]|]; simpl in *; try done.
  apply processNRExtRef_returns.
Qed.

Lemma snapshot_is_Some edit :
  bool_decide (is_Some (snapshot edit)) = updatesExtRef edit.
Proof.
  rewrite snapshot_updatesExtRef.
  destruct edit as [| element ? | |]; simpl; try done.
  by destruct (String.eqb _ _).
Qed.

(** C4, as the code has it. A notification passes through both listeners,
    read as [before] on the way down and as [after] on the way up: the
    same target and, entry by entry, the same kind of edit. If
    [shouldListen] turns it down nothing is read or written. If it is
    listened to and the component is enabled, the reaction returns with
    the snapshot sequence empty and the flag [false]; if the component is
    disabled, the reaction returns at once and the snapshots and the flag
    of the capture stay. Either way the reaction reads only what the
    capture of the same notification stored: what an earlier notification
    left in [preEventExtRef] and [ignoreSupervision] makes no difference
    to what is done. *)
Theorem roundTrip_snapshots before after this :
  initiatingTarget before = initiatingTarget after →
  updatesExtRef <$> flat [detail before] = updatesExtRef <$> flat [detail after] →
  let '(this', run) := roundTrip before after this in
  (shouldListen before = false → this' = this ∧ run = mret tt)
  ∧ (shouldListen before = true → enabled this = true →
     outcome run = Returned tt
     ∧ this' = {| enabled := true; preEventExtRef := []; ignoreSupervision := false |})
  ∧ (shouldListen before = true → enabled this = false →
     run = mret tt
     ∧ preEventExtRef this' = map snapshot (flat [detail before])
     ∧ ignoreSupervision this'
       = from_option (hasAttribute "ignoresupervision") false (initiatingTarget before))
  ∧ (∀ earlier, enabled earlier = enabled this →
     (roundTrip before after earlier).2 = run).
Proof.
  intros Htarget Hshape.
  assert (shouldListen after = shouldListen before) as Hlisten
    by (unfold shouldListen; by rewrite Htarget).
  unfold Plugin.roundTrip, Plugin.onBubble, onCapture. rewrite Hlisten.
  destruct (shouldListen before) eqn:Hb.
  - set (loop := forEach (reactTo processNRExtRef (map snapshot (flat [detail before])))
                         (flat [detail after])).
    assert (outcome loop = Returned tt) as Hloop.
    { apply forEach_from_returns. intros i edit Hi.
      apply reactTo_returns with (edits := flat [detail after]); [|done].
      rewrite <- Hshape. change (map snapshot ?l) with (snapshot <$> l).
      rewrite <- list_fmap_compose. apply list_fmap_ext.
      intros ? edit' _. simpl. by rewrite snapshot_is_Some. }
    assert (∀ c, modifyAdditionalExtRefs after (captureMetadata before c)
                 = if enabled c
                   then ({| enabled := true; preEventExtRef := [];
                            ignoreSupervision := false |}, loop)
                   else (captureMetadata before c, mret tt)) as Hreact.
    { intros c. destruct (enabled c) eqn:Hc.
      - rewrite (captureMetadata_open _ _ Hb).
        by apply modifyAdditionalExtRefs_returns.
      - apply modifyAdditionalExtRefs_disabled.
        by rewrite (captureMetadata_open _ _ Hb). }
    rewrite Hreact. destruct (enabled this) eqn:Hon.
    + repeat split; try done.
      intros earlier He. by rewrite Hreact, He.
    + rewrite (captureMetadata_open _ _ Hb). repeat split; try done.
      intros earlier He. by rewrite Hreact, He.
  - rewrite (captureMetadata_closed _ _ Hb). repeat split; try done.
Qed.

End Methods.

End PluginFacts.

(** ** The definitions run on the small substation *)

Module OnSubstation.
Import Dom Pairing Plugin Substation.

Lemma extRefMatchNR_slash_addresses_witness :
  extRefMatchNR (detached (extRef "RxExtIn1;/Ind/stVal" true))
                (detached (extRef "RxExtIn2;/Ind/q" false)) = true.
Proof.
  apply (PairingFacts.extRefMatchNR_slash_addresses
           (detached (extRef "RxExtIn1;/Ind/stVal" true))
           (detached (extRef "RxExtIn2;/Ind/q" false)));
    vm_compute; reflexivity.
Defined.

Lemma extRefMatchNR_same_address_witness :
  Js.split "." "RxExtIn1.q" = ["RxExtIn1"] ++ [(EmptyString ++ "q")%string]
  ∧ extRefMatchNR (detached (extRef "RxExtIn1.q" true))
                  (detached (extRef "RxExtIn1.q" false)) = true.
Proof.
  split; [reflexivity|].
  apply (PairingFacts.extRefMatchNR_same_address _ _ "RxExtIn1.q" ["RxExtIn1"] EmptyString);
    vm_compute; reflexivity.
Defined.

(** C3 on two FCDAs with a functional constraint and nothing else:
    neither has any of the six attributes, the second no quality
    [daName], and the answer is [true]. *)
Lemma isfcdaPairWithQuality_bare :
  Forall (λ attr, getAttribute attr bareST = None ∧ getAttribute attr bareMX = None)
         addressing
  ∧ isfcdaPairWithQuality bareST bareMX = true.
Proof. split; [|vm_compute; reflexivity]. repeat constructor. Qed.

Lemma isfcdaPairWithQuality_absent_witness :
  isfcdaPairWithQuality bareST bareMX = true.
Proof.
  apply PairingFacts.isfcdaPairWithQuality_absent.
  intros attr Hin. unfold addressing in Hin.
  repeat (apply elem_of_cons in Hin as [->|Hin]; [split; reflexivity|]).
  by apply elem_of_nil in Hin.
Defined.

Lemma processNRExtRef_absent_prior_witness :
  isSubscribed (extRefA docFree) = false
  ∧ let run := processNRExtRef isSubscribed findFCDAs findControlBlock Thrown
                 (extRefA docFree) None in
    effects run = [FindFCDAs None] ∧ outcome run = Thrown.
Proof.
  split; [reflexivity|].
  exact (PluginFacts.processNRExtRef_absent_prior
           isSubscribed findFCDAs findControlBlock Thrown (extRefA docFree) eq_refl).
Defined.

Lemma unsubscribe_needs_no_controlBlock_witness :
  let run := modifyValueAndQualityPair isSubscribed noControlBlock
               (extRefA docFree) (Some priorBound) (fcdaA docBound) in
  effects run = [DispatchEvent (unsubscribe [extRefB docFree])].
Proof.
  refine (proj1 (PluginFacts.unsubscribe_needs_no_controlBlock
                   isSubscribed noControlBlock
                   (extRefA docFree) (Some priorBound) (fcdaA docBound)
                   (extRefB docFree) (fcdaB docBound) _ _ _ _) _ _);
    vm_compute; reflexivity.
Defined.

Lemma captureMetadata_snapshots_witness :
  shouldListen subscribeBefore = true
  ∧ preEventExtRef (captureMetadata subscribeBefore (idle false)) !! 1
    = Some (Some (importNode (extRefA docFree)))
  ∧ preEventExtRef (captureMetadata subscribeBefore (idle false)) !! 0 = Some None.
Proof.
  assert (shouldListen subscribeBefore = true) as Hlisten by reflexivity.
  destruct (PluginFacts.captureMetadata_snapshots subscribeBefore (idle false) Hlisten)
    as [_ Hat].
  split; [exact Hlisten|]. split.
  - apply (proj1 (Hat 1 (Update (extRefA docFree) binding) eq_refl) _ binding);
      reflexivity.
  - apply (proj2 (Hat 0 (Remove (gseOf docFree)) eq_refl)). reflexivity.
Defined.

(** The two scenarios of the plugin at work: binding the first ExtRef
    subscribes its neighbour to the quality FCDA with the same control
    block, and unbinding it unsubscribes the neighbour, control block or
    not. *)
Example subscribe_scenario :
  roundTrip isSubscribed findFCDAs findControlBlock Thrown
    subscribeBefore subscribeAfter (idle true)
  = ({| enabled := true; preEventExtRef := []; ignoreSupervision := false |},
     mkRun [FindFCDAs (Some (extRefA docBound));
            DispatchEvent (subscribe (extRefB docBound) (fcdaB docBound) (gseOf docBound))]
           (Returned tt)).
Proof. vm_compute. reflexivity. Qed.

Example unsubscribe_scenario :
  roundTrip isSubscribed findFCDAs noControlBlock Thrown
    (mkEditEvent (Some laterBinding) (Update (extRefA docBound) unbinding))
    (mkEditEvent (Some laterBinding) (Update (extRefA docFree) unbinding))
    (idle true)
  = ({| enabled := true; preEventExtRef := []; ignoreSupervision := false |},
     mkRun [FindFCDAs (Some priorBound);
            DispatchEvent (unsubscribe [extRefB docFree])]
           (Returned tt)).
Proof. vm_compute. reflexivity. Qed.

(** The same reaction without a snapshot at the index of the update
    throws inside the loop, and the component is not reset. *)
Example misaligned_scenario :
  modifyAdditionalExtRefs isSubscribed findFCDAs findControlBlock Thrown
    (mkEditEvent (Some laterBinding) (Update (extRefA docFree) unbinding))
    (idle true)
  = (idle true, mkRun [FindFCDAs None] Thrown).
Proof. vm_compute. reflexivity. Qed.

Lemma disabled_never_dispatches_witness :
  enabled (idle false) = false
  ∧ (roundTrip isSubscribed findFCDAs findControlBlock Thrown
       subscribeBefore subscribeAfter (idle false)).2 = mret tt.
Proof.
  split; [reflexivity|].
  apply (PluginFacts.disabled_never_dispatches
           isSubscribed findFCDAs findControlBlock Thrown subscribeAfter (idle false)
           eq_refl).
Defined.

Lemma other_vendor_never_reconciled_witness :
  manufacturer (extRefA docOther) = Some "ACME"
  ∧ (modifyAdditionalExtRefs isSubscribed findFCDAs findControlBlock Thrown
       (mkEditEvent (Some laterBinding) (Update (extRefA docOther) binding))
       (idle true)).2 = mret tt.
Proof.
  split; [reflexivity|].
  apply (PluginFacts.other_vendor_never_reconciled
           isSubscribed findFCDAs findControlBlock Thrown (extRefA docOther) binding).
  vm_compute. discriminate.
Defined.

(** C4 fails as stated: the notification is listened to, the component
    is disabled, and after both listeners the two snapshots and the flag
    of the capture are still there. *)
Lemma disabled_keeps_snapshots :
  shouldListen subscribeBefore = true
  ∧ let this' := (roundTrip isSubscribed findFCDAs findControlBlock Thrown
                    subscribeBefore subscribeAfter (idle false)).1 in
    preEventExtRef this' = [None; Some (importNode (extRefA docFree))]
    ∧ ignoreSupervision this' = true.
Proof. repeat split; vm_compute; reflexivity. Qed.

Lemma roundTrip_snapshots_witness :
  initiatingTarget subscribeBefore = initiatingTarget subscribeAfter
  ∧ updatesExtRef <$> flat [detail subscribeBefore]
    = updatesExtRef <$> flat [detail subscribeAfter]
  ∧ shouldListen subscribeBefore = true
  ∧ (roundTrip isSubscribed findFCDAs findControlBlock Thrown
       subscribeBefore subscribeAfter (idle true)).1
    = {| enabled := true; preEventExtRef := []; ignoreSupervision := false |}.
Proof.
  assert (initiatingTarget subscribeBefore = initiatingTarget subscribeAfter)
    as Htarget by reflexivity.
  assert (updatesExtRef <$> flat [detail subscribeBefore]
          = updatesExtRef <$> flat [detail subscribeAfter]) as Hshape by reflexivity.
  pose proof (PluginFacts.roundTrip_snapshots
                isSubscribed findFCDAs findControlBlock Thrown
                subscribeBefore subscribeAfter (idle true) Htarget Hshape) as H.
  destruct (roundTrip _ _ _ _ _ _ _) as [this' run].
  destruct H as (_ & Hon & _).
  repeat split; try reflexivity.
  apply Hon; reflexivity.
Defined.

End OnSubstation.

(** * Further properties *)

(** ** Splitting an address *)

Module SplitFacts.
Import Js Segments.

#[local] Arguments String.append : simpl nomatch.

Lemma join_cons x y ys : join (x :: y :: ys) = (x ++ String "." (join (y :: ys)))%string.
Proof. done. Qed.

Lemma split_cons_dot s : split "." (String "." s) = EmptyString :: split "." s.
Proof. done. Qed.

Lemma split_cons_other c s :
  c ≠ "."%char →
  split "." (String c s) =
  match split "." s with
  | [] => [String c EmptyString]
  | seg :: segs => String c seg :: segs
  end.
Proof.
  intros Hc. simpl. destruct (Ascii.eqb_spec c "."); [done|]. done.
Qed.

(** Joining the segments of an address gives the address back. *)
Lemma join_split s : join (split "." s) = s.
Proof.
  induction s as [|c s IH]; [done|].
  destruct (ascii_dec c ".") as [->|Hc].
  - rewrite split_cons_dot.
    pose proof (JsFacts.split_not_nil "." s) as Hne.
    destruct (split "." s) as [|seg segs] eqn:Hs; [done|].
    rewrite join_cons, IH. done.
  - rewrite (split_cons_other _ _ Hc).
    pose proof (JsFacts.split_not_nil "." s) as Hne.
    destruct (split "." s) as [|seg segs] eqn:Hs; [done|].
    destruct segs as [|seg' segs].
    + simpl in *. by rewrite IH.
    + rewrite join_cons. rewrite join_cons in IH. by rewrite <- IH.
Qed.

(** A ['.'] in the middle splits the address where it stands. *)
Lemma split_app_dot (p r : string) :
  split "." (p ++ String "." r) = split "." p ++ split "." r.
Proof.
  induction p as [|c p IH]; [done|].
  change (String c p ++ String "." r)%string with (String c (p ++ String "." r)).
  destruct (ascii_dec c ".") as [->|Hc].
  - by rewrite !split_cons_dot, IH.
  - rewrite !(split_cons_other _ _ Hc), IH.
    pose proof (JsFacts.split_not_nil "." p) as Hne.
    by destruct (split "." p).
Qed.

Lemma join_snoc xs x :
  xs ≠ [] → join (xs ++ [x]) = (join xs ++ String "." x)%string.
Proof.
  induction xs as [|y ys IH]; [done|]. intros _.
  destruct ys as [|y' ys]; [done|].
  specialize (IH ltac:(done)). cbn [app] in *.
  rewrite (join_cons y y' (ys ++ [x])), (join_cons y y' ys), IH.
  by rewrite JsFacts.string_app_assoc.
Qed.

(** The address is what comes before its last segment, a ['.'] if there
    is anything before, and the last segment. *)
Lemma split_last s seg :
  last (split "." s) = Some seg →
  s = seg ∨ ∃ p, s = (p ++ String "." seg)%string.
Proof.
  intros Hlast.
  destruct (split "." s) as [|x xs] eqn:Hs using rev_ind; [done|].
  rewrite last_snoc in Hlast. injection Hlast as ->.
  pose proof (join_split s) as Hj. rewrite Hs in Hj.
  destruct xs as [|y ys].
  - left. by rewrite <- Hj.
  - right. exists (join (y :: ys)). by rewrite <- Hj, join_snoc.
Qed.

Lemma string_snoc_cases (s : string) :
  s = EmptyString ∨ ∃ t c, s = (t ++ String c EmptyString)%string.
Proof.
  induction s as [|c s IH]; [by left|]. right.
  destruct IH as [->|(t & d & ->)].
  - by exists EmptyString, c.
  - by exists (String c t), d.
Qed.

(** The last character of a string is [q] exactly when the string is
    something followed by [q]. *)
Lemma slice_end_q s :
  string_slice_end 1 s = "q" ↔ ∃ p, s = (p ++ "q")%string.
Proof.
  split.
  - intros H. destruct (string_snoc_cases s) as [->|(t & c & ->)]; [done|].
    rewrite JsFacts.string_slice_end_snoc in H. injection H as ->. by exists t.
  - intros [p ->]. apply JsFacts.string_slice_end_snoc.
Qed.

(** The last segment ends in [q] exactly when the address does. *)
Lemma last_segment_q s seg :
  last (split "." s) = Some seg →
  string_slice_end 1 seg = "q" ↔ string_slice_end 1 s = "q".
Proof.
  intros Hlast. destruct (split_last _ _ Hlast) as [->|[p ->]]; [done|].
  destruct (string_snoc_cases seg) as [->|(t & c & ->)].
  - by rewrite JsFacts.string_slice_end_snoc.
  - change (p ++ String "." (t ++ String c EmptyString))%string
      with (p ++ (String "." t ++ String c EmptyString))%string.
    rewrite <- JsFacts.string_app_assoc.
    by rewrite !JsFacts.string_slice_end_snoc.
Qed.

(** The last segment is [q] exactly when the address is [q] or ends in
    [.q]. *)
Lemma last_segment_is_q s :
  last (split "." s) = Some "q" ↔ s = "q" ∨ ∃ p, s = (p ++ ".q")%string.
Proof.
  split.
  - intros H. by apply split_last in H.
  - intros [->|[p ->]]; [done|].
    rewrite split_app_dot. simpl. by rewrite last_snoc.
Qed.

End SplitFacts.

(** ** The pairing predicates, in full *)

Module PairingMore.
Import Dom Pairing.

Lemma head_slice_end {A} (xs : list A) : head (Js.slice_end 1 xs) = last xs.
Proof.
  unfold Js.slice_end. rewrite head_lookup, lookup_drop, last_lookup.
  f_equal. lia.
Qed.

(** X1: [extRefMatchNR] holds exactly when both elements have an
    [intAddr], the two addresses have the same segments before their last
    one, and the second address ends in the character [q]. Comparing the
    JSON texts is comparing the segment lists, and the test on the last
    segment only ever sees the last character of the whole address. *)
Theorem extRefMatchNR_iff a b :
  extRefMatchNR a b = true ↔
  ∃ sa sb p,
    getAttribute "intAddr" a = Some sa
    ∧ getAttribute "intAddr" b = Some sb
    ∧ take (length (Js.split "." sa) - 1) (Js.split "." sa)
      = take (length (Js.split "." sb) - 1) (Js.split "." sb)
    ∧ sb = (p ++ "q")%string.
Proof.
  rewrite PairingFacts.extRefMatchNR_true. split.
  - intros (sa & sb & seg & Ha & Hb & Hpre & Hlast & Hq).
    apply (SplitFacts.last_segment_q _ _ Hlast) in Hq.
    apply SplitFacts.slice_end_q in Hq as [p ->]. by exists sa, (p ++ "q")%string, p.
  - intros (sa & sb & p & Ha & Hb & Hpre & ->).
    pose proof (JsFacts.split_not_nil "." (p ++ "q")) as Hne.
    destruct (last (Js.split "." (p ++ "q"))) as [seg|] eqn:Hlast.
    + exists sa, (p ++ "q")%string, seg. repeat split; try done.
      apply (SplitFacts.last_segment_q _ _ Hlast), SplitFacts.slice_end_q. by exists p.
    + by apply last_None in Hlast.
Qed.

(** X2: [isfcdaPairWithQuality] holds exactly when the two elements agree
    on [ldInst], [prefix], [lnClass], [lnInst] and [doName] (absent on
    both sides counts as agreeing) and either agree on [daName] as well
    or the second has a [daName] that is [q] or ends in [.q]. *)
Theorem isfcdaPairWithQuality_iff a b :
  isfcdaPairWithQuality a b = true ↔
  (∀ attr, attr ∈ ["ldInst"; "prefix"; "lnClass"; "lnInst"; "doName"] →
     getAttribute attr a = getAttribute attr b)
  ∧ (getAttribute "daName" a = getAttribute "daName" b
     ∨ ∃ d, getAttribute "daName" b = Some d
            ∧ (d = "q" ∨ ∃ p, d = (p ++ ".q")%string)).
Proof.
  rewrite PairingFacts.isfcdaPairWithQuality_true.
  assert ((d ← getAttribute "daName" b; head (Js.slice_end 1 (Js.split "." d)))
          = Some "q"
          ↔ ∃ d, getAttribute "daName" b = Some d
                 ∧ (d = "q" ∨ ∃ p, d = (p ++ ".q")%string)) as Hq.
  { destruct (getAttribute "daName" b) as [d|]; simpl.
    - rewrite head_slice_end, SplitFacts.last_segment_is_q. split; [by exists d|].
      by intros (? & [= <-] & ?).
    - split; [done | by intros (? & ? & ?)]. }
  unfold addressing. split.
  - intros H. split.
    + intros attr Hin.
      assert (attr ≠ "daName") as Hne.
      { intros ->. repeat (apply elem_of_cons in Hin as [Hin|Hin]; [done|]).
        by apply elem_of_nil in Hin. }
      destruct (H attr) as [?|[? _]]; [|done..].
      repeat (apply elem_of_cons in Hin as [->|Hin]; [repeat constructor|]).
      by apply elem_of_nil in Hin.
    + destruct (H "daName") as [?|[_ ?]]; [repeat constructor | by left |].
      right. by apply Hq.
  - intros [Hfive Hda] attr Hin.
    destruct (decide (attr = "daName")) as [->|Hne].
    + destruct Hda as [?|?]; [by left | right]. split; [done | by apply Hq].
    + left. apply Hfive.
      repeat (apply elem_of_cons in Hin as [->|Hin]; [by repeat constructor|]).
      by apply elem_of_nil in Hin.
Qed.

(** X3: two elements that differ on one of the five attributes other
    than [daName] (a value against another, or a value against none) are
    never a pair, whatever their [daName]s. *)
Theorem isfcdaPairWithQuality_differ a b attr :
  attr ∈ ["ldInst"; "prefix"; "lnClass"; "lnInst"; "doName"] →
  getAttribute attr a ≠ getAttribute attr b →
  isfcdaPairWithQuality a b = false.
Proof.
  intros Hin Hne.
  apply (PairingFacts.isfcdaPairWithQuality_one_sided a b attr); [| |done].
  - unfold addressing.
    repeat (apply elem_of_cons in Hin as [->|Hin]; [by repeat constructor|]).
    by apply elem_of_nil in Hin.
  - intros ->. repeat (apply elem_of_cons in Hin as [Hin|Hin]; [done|]).
    by apply elem_of_nil in Hin.
Qed.

(** X4: elements that agree on all six attributes are a pair: nothing
    asks the second for a quality attribute, and every element pairs with
    itself and with its clone. *)
Theorem isfcdaPairWithQuality_agree a b :
  (∀ attr, attr ∈ addressing → getAttribute attr a = getAttribute attr b) →
  isfcdaPairWithQuality a b = true
  ∧ isfcdaPairWithQuality a a = true
  ∧ isfcdaPairWithQuality a (importNode a) = true.
Proof.
  intros H. repeat split; apply PairingFacts.isfcdaPairWithQuality_true;
    intros attr Hin; left; [by apply H | done | done].
Qed.

End PairingMore.

(** ** The listeners, further *)

Module PluginMore.
Import Dom Pairing Plugin RunFacts.

Lemma dispatched_bind {A B} (m : Run A) (k : A → Run B) :
  dispatched (m ≫= k) =
  dispatched m ++ match outcome m with
                  | Returned a => dispatched (k a)
                  | Thrown => []
                  end.
Proof.
  unfold dispatched. rewrite effects_bind, omap_app.
  by destruct (outcome m).
Qed.

(** A loop throws only where one of its steps does. *)
Lemma forEach_from_thrown {A} (f : A → nat → Run unit) xs :
  ∀ index,
    outcome (forEach_from f index xs) = Thrown →
    ∃ i x, xs !! i = Some x ∧ outcome (f x (index + i)) = Thrown.
Proof.
  induction xs as [|x xs IH]; intros index H; simpl in H; [done|].
  rewrite outcome_bind in H.
  destruct (outcome (f x index)) as [[]|] eqn:Hx.
  - destruct (IH _ H) as (i & y & Hy & Hthrown).
    exists (S i), y. split; [done|].
    by replace (index + S i) with (S index + i) by lia.
  - exists 0, x. by rewrite Nat.add_0_r.
Qed.

(** A loop dispatches no more than its steps may. *)
Lemma forEach_from_dispatched {A} (f : A → nat → Run unit) (may : A → nat) xs :
  (∀ x i, (length (dispatched (f x i)) ≤ may x)%nat) →
  ∀ index, (length (dispatched (forEach_from f index xs)) ≤ sum_list (may <$> xs))%nat.
Proof.
  intros Hf. induction xs as [|x xs IH]; intros index; [simpl; lia|].
  cbn [forEach_from].
  change (sum_list (may <$> x :: xs)) with (may x + sum_list (may <$> xs)).
  rewrite dispatched_bind, length_app.
  specialize (Hf x index). specialize (IH (S index)).
  destruct (outcome (f x index)); [|rewrite length_nil]; lia.
Qed.

Section Methods.

Variable isSubscribed : Element → bool.
Variable findFCDAs : Element → list Element.
Variable findControlBlock : Element → option Element.
Variable findFCDAs_null : Outcome (option (list Element)).

Abbreviation modifyValueAndQualityPair :=
  (Plugin.modifyValueAndQualityPair isSubscribed findControlBlock).
Abbreviation processNRExtRef :=
  (Plugin.processNRExtRef isSubscribed findFCDAs findControlBlock findFCDAs_null).
Abbreviation modifyAdditionalExtRefs :=
  (Plugin.modifyAdditionalExtRefs isSubscribed findFCDAs findControlBlock findFCDAs_null).
Abbreviation roundTrip :=
  (Plugin.roundTrip isSubscribed findFCDAs findControlBlock findFCDAs_null).
Abbreviation wasSubscribed := (Plugin.wasSubscribed isSubscribed).

(** *** Value/quality propagation *)

Lemma parentElement_nextElementSibling e next :
  nextElementSibling e = Some next → parentElement next = parentElement e.
Proof.
  unfold nextElementSibling, parentElement.
  destruct e as [[|f up] t]; simpl; [done|].
  destruct f as [tag attrs ls [|r rs]]; simpl; [done|].
  by intros [= <-].
Qed.

(** X5: whatever [modifyValueAndQualityPair] dispatches is aimed at the
    element right after [firstExtRef], under the same parent, and only
    when that element and the element right after [firstFcda] pass both
    pairing predicates: a subscribe to that FCDA with the control block of
    [firstExtRef], or an unsubscribe of that one element. *)
Theorem modifyValueAndQualityPair_targets firstExtRef prior firstFcda edit :
  edit ∈ dispatched (modifyValueAndQualityPair firstExtRef prior firstFcda) →
  ∃ nextExtRef nextFcda,
    nextElementSibling firstExtRef = Some nextExtRef
    ∧ nextElementSibling firstFcda = Some nextFcda
    ∧ parentElement nextExtRef = parentElement firstExtRef
    ∧ extRefMatchNR firstExtRef nextExtRef = true
    ∧ isfcdaPairWithQuality firstFcda nextFcda = true
    ∧ ((∃ controlBlock,
          findControlBlock firstExtRef = Some controlBlock
          ∧ edit = subscribe nextExtRef nextFcda controlBlock)
       ∨ edit = unsubscribe [nextExtRef]).
Proof.
  unfold Plugin.modifyValueAndQualityPair, dispatched.
  destruct (nextElementSibling firstFcda) as [nextFcda|] eqn:HF;
    [|by intros ?%elem_of_nil].
  destruct (nextElementSibling firstExtRef) as [nextExtRef|] eqn:HE;
    [|by intros ?%elem_of_nil].
  destruct (extRefMatchNR firstExtRef nextExtRef) eqn:HmE;
    [|by intros ?%elem_of_nil].
  destruct (isfcdaPairWithQuality firstFcda nextFcda) eqn:HmF;
    [|by intros ?%elem_of_nil].
  intros Hin. exists nextExtRef, nextFcda.
  pose proof (parentElement_nextElementSibling _ _ HE) as Hparent.
  repeat (split; [done|]).
  destruct (wasSubscribed prior), (isSubscribed firstExtRef),
    (findControlBlock firstExtRef) as [controlBlock|]; simpl in Hin;
    try (by apply elem_of_nil in Hin);
    apply list_elem_of_singleton in Hin as ->; [right | right | left]; eauto.
Qed.

(** *** Reconciliation of one ExtRef *)

Lemma processNRExtRef_dispatched_le extRef prior :
  (length (dispatched (processNRExtRef extRef prior)) ≤ 1)%nat.
Proof.
  unfold Plugin.processNRExtRef.
  destruct (negb _ && _); [simpl; lia|].
  rewrite dispatched_bind.
  destruct (isSubscribed extRef).
  - simpl. destruct (head _) as [firstFcda|]; [|simpl; lia].
    apply PluginFacts.modifyValueAndQualityPair_dispatched_le.
  - unfold call_findFCDAs. cbn [outcome dispatched effects omap].
    destruct prior as [prior|]; [|destruct findFCDAs_null as [fcdas|]].
    + simpl. destruct (head _) as [firstFcda|]; [|simpl; lia].
      apply PluginFacts.modifyValueAndQualityPair_dispatched_le.
    + simpl. destruct (fcdas ≫= head) as [firstFcda|]; [|simpl; lia].
      apply PluginFacts.modifyValueAndQualityPair_dispatched_le.
    + simpl. lia.
Qed.

(** X6: [processNRExtRef] dispatches nothing when the subscription state
    has not changed, that is when the element is subscribed now exactly
    if its snapshot was (no snapshot counting as not subscribed); also
    when the lookup throws. *)
Theorem processNRExtRef_unchanged extRef prior :
  wasSubscribed prior = isSubscribed extRef →
  dispatched (processNRExtRef extRef prior) = [].
Proof.
  intros Hsame. unfold Plugin.processNRExtRef.
  destruct (negb _ && _); [done|].
  rewrite dispatched_bind.
  assert (∀ firstFcda,
            dispatched (modifyValueAndQualityPair extRef prior firstFcda) = []) as Hnone.
  { intros firstFcda.
    by rewrite (PluginFacts.modifyValueAndQualityPair_unchanged _ _ _ _ _ Hsame). }
  destruct (isSubscribed extRef).
  - simpl. destruct (head _); [apply Hnone | done].
  - unfold call_findFCDAs. cbn [outcome dispatched effects omap].
    destruct prior as [prior|]; [|destruct findFCDAs_null as [fcdas|]]; simpl.
    + destruct (head _); [apply Hnone | done].
    + destruct (fcdas ≫= head); [apply Hnone | done].
    + done.
Qed.

(** X7: the element whose FCDAs are looked up is the live one when it is
    subscribed and the snapshot otherwise; when that lookup finds no
    FCDA, [processNRExtRef] returns having done nothing else. *)
Theorem processNRExtRef_no_fcda extRef prior :
  isSubscribed extRef = true ∨ isSubscribed prior = true →
  let asked := if isSubscribed extRef then extRef else prior in
  findFCDAs asked = [] →
  processNRExtRef extRef (Some prior) = mkRun [FindFCDAs (Some asked)] (Returned tt).
Proof.
  intros Hsome asked Hnone. subst asked. unfold Plugin.processNRExtRef.
  cbn [from_option].
  destruct (isSubscribed extRef) eqn:Hnow; cbn [negb andb].
  - unfold mbind, Run_bind, call_findFCDAs. cbn [outcome effects].
    by rewrite Hnone.
  - destruct Hsome as [?|Hwas]; [done|]. rewrite Hwas. cbn [negb].
    unfold mbind, Run_bind, call_findFCDAs. cbn [outcome effects].
    by rewrite Hnone.
Qed.

(** *** Capture *)

(** X8: the snapshots of an array of edits are the snapshots of its
    members, one member after the other; wrapping edits in arrays, at any
    depth, moves no snapshot. *)
Theorem captureMetadata_array target edits this :
  shouldListen (mkEditEvent target (Complex edits)) = true →
  preEventExtRef (captureMetadata (mkEditEvent target (Complex edits)) this)
  = edits ≫= λ edit, preEventExtRef (captureMetadata (mkEditEvent target edit) this).
Proof.
  intros Hlisten.
  rewrite (PluginFacts.captureMetadata_open _ _ Hlisten). cbn [preEventExtRef detail].
  assert (∀ edit, preEventExtRef (captureMetadata (mkEditEvent target edit) this)
                  = snapshot <$> flat_edit edit) as Hone.
  { intros edit.
    rewrite (PluginFacts.captureMetadata_open (mkEditEvent target edit) this Hlisten).
    cbn [preEventExtRef detail]. unfold flat. simpl. by rewrite app_nil_r. }
  unfold flat. cbn [mbind list_bind flat_edit]. rewrite app_nil_r.
  change (map snapshot ?l) with (snapshot <$> l). clear Hlisten.
  induction edits as [|edit edits IH]; [done|].
  cbn [mbind list_bind]. rewrite fmap_app, Hone. f_equal. apply IH.
Qed.

(** X9: every snapshot stored by a capture is the clone of an ExtRef the
    notification updates, and stands alone: no parent, no sibling, no IED
    above it to read a manufacturer from. *)
Theorem snapshots_stand_alone event this clone :
  shouldListen event = true →
  Some clone ∈ preEventExtRef (captureMetadata event this) →
  tagName clone = "ExtRef"
  ∧ parentElement clone = None
  ∧ nextElementSibling clone = None
  ∧ manufacturer clone = None
  ∧ ∃ element attributes,
      Update element attributes ∈ flat [detail event] ∧ clone = importNode element.
Proof.
  intros Hlisten. rewrite (PluginFacts.captureMetadata_open _ _ Hlisten).
  cbn [preEventExtRef]. change (map snapshot ?l) with (snapshot <$> l).
  intros (edit & Hsnap & Hin)%list_elem_of_fmap.
  destruct edit as [| element attributes | |]; try done. simpl in Hsnap.
  destruct (String.eqb_spec (tagName element) "ExtRef") as [Htag|]; [|done].
  injection Hsnap as ->.
  assert (tagName (importNode element) = "ExtRef") as Hclone by done.
  repeat split; try done.
  - unfold manufacturer, closest. simpl.
    unfold tagName in Htag. by rewrite Htag.
  - by exists element, attributes.
Qed.

(** *** Reaction *)

(** X10: neither listener writes [enabled]: it is the same after a
    capture, after a reaction (thrown or not) and after both. *)
Theorem enabled_kept before after this :
  enabled (captureMetadata before this) = enabled this
  ∧ enabled (modifyAdditionalExtRefs after this).1 = enabled this
  ∧ enabled (roundTrip before after this).1 = enabled this.
Proof.
  assert (∀ event c, enabled (captureMetadata event c) = enabled c) as Hcap.
  { intros event c. unfold captureMetadata. by destruct (shouldListen event). }
  assert (∀ event c, enabled (modifyAdditionalExtRefs event c).1 = enabled c) as Hreact.
  { intros event c. unfold Plugin.modifyAdditionalExtRefs.
    destruct (enabled c) eqn:Hc; cbn [negb]; [|done].
    by destruct (outcome _). }
  repeat split; [apply Hcap | apply Hreact |].
  unfold Plugin.roundTrip, Plugin.onBubble, onCapture.
  destruct (shouldListen after); [by rewrite Hreact, Hcap | apply Hcap].
Qed.

(** X11: an event that [shouldListen] turns down (its first target is no
    element, carries another identity, or has not opted in) goes through
    both listeners without a trace, enabled or not. *)
Theorem not_listened_no_effect before after this :
  initiatingTarget before = initiatingTarget after →
  (initiatingTarget before = None
   ∨ ∃ target,
       initiatingTarget before = Some target
       ∧ (getAttribute "identity" target ≠ Some "danyill.oscd-subscriber-later-binding"
          ∨ hasAttribute "allowexternalplugins" target = false)) →
  roundTrip before after this = (this, mret tt).
Proof.
  intros Htarget Hwhy.
  assert (shouldListen before = false) as Hb.
  { unfold shouldListen.
    destruct Hwhy as [->|(target & -> & [Hid|Hopt])]; [done| |].
    - apply PairingFacts.strict_eq_false in Hid. by rewrite Hid.
    - by rewrite Hopt, andb_false_r. }
  assert (shouldListen after = false) as Ha
    by (unfold shouldListen in *; by rewrite <- Htarget).
  unfold Plugin.roundTrip, Plugin.onBubble, onCapture.
  by rewrite Ha, (PluginFacts.captureMetadata_closed _ _ Hb).
Qed.

(** X12: the reaction to the entry at index [i] is handed the snapshot
    taken of the entry at index [i]: for an NR ExtRef updated there,
    [processNRExtRef] gets the live element and the clone made of it
    before the update. *)
Theorem reaction_gets_its_snapshot
    process before this i element attributes element' attributes' :
  shouldListen before = true →
  flat [detail before] !! i = Some (Update element attributes) →
  tagName element = "ExtRef" →
  tagName element' = "ExtRef" →
  manufacturer element' = Some "NRR" →
  reactTo process (preEventExtRef (captureMetadata before this))
          (Update element' attributes') i
  = process element' (Some (importNode element)).
Proof.
  intros Hlisten Hi Htag Htag' Hnrr.
  rewrite (PluginFacts.captureMetadata_open _ _ Hlisten). cbn [preEventExtRef].
  change (map snapshot ?l) with (snapshot <$> l).
  unfold reactTo.
  rewrite Htag', Hnrr, PairingFacts.strict_eq_refl, String.eqb_refl.
  rewrite list_lookup_fmap, Hi. cbn [andb fmap option_fmap option_map snapshot].
  by rewrite Htag, String.eqb_refl.
Qed.

Lemma sum_list_updatesExtRef edits :
  sum_list ((λ edit, if updatesExtRef edit then 1 else 0) <$> edits)
  = length (filter (λ edit, updatesExtRef edit = true) edits).
Proof.
  induction edits as [|edit edits IH]; [done|].
  rewrite fmap_cons, filter_cons. cbn [sum_list]. rewrite IH.
  destruct (updatesExtRef edit); by destruct (decide _).
Qed.

(** X13: one call of [modifyAdditionalExtRefs] dispatches at most one
    edit for each update of an ExtRef in the flattened notification, and
    so never more edits than the notification has entries. *)
Theorem modifyAdditionalExtRefs_dispatch_bound event this :
  let run := (modifyAdditionalExtRefs event this).2 in
  (length (dispatched run)
   ≤ length (filter (λ edit, updatesExtRef edit = true) (flat [detail event])))%nat
  ∧ (length (dispatched run) ≤ length (flat [detail event]))%nat.
Proof.
  assert (length (dispatched (modifyAdditionalExtRefs event this).2)
          ≤ length (filter (λ edit, updatesExtRef edit = true) (flat [detail event])))%nat
    as Hbound.
  { unfold Plugin.modifyAdditionalExtRefs.
    destruct (enabled this); cbn [negb]; [|simpl; lia].
    rewrite <- sum_list_updatesExtRef.
    assert (∀ loop : Run unit,
              (match outcome loop with
               | Returned _ => ({| enabled := true; preEventExtRef := [];
                                   ignoreSupervision := false |}, loop)
               | Thrown => (this, loop)
               end).2 = loop) as -> by (intros loop; by destruct (outcome loop)).
    apply forEach_from_dispatched. intros edit i.
    destruct edit as [| element attributes | |]; simpl; try lia.
    destruct (String.eqb (tagName element) "ExtRef"); simpl; [|lia].
    destruct (strict_eq _ _); [|simpl; lia].
    apply processNRExtRef_dispatched_le. }
  split; [exact Hbound|].
  etrans; [exact Hbound|]. apply length_filter.
Qed.

(** X14: [modifyAdditionalExtRefs] throws only in one way: the component
    is enabled, some NR ExtRef update has no snapshot at its index, that
    ExtRef is not subscribed, and [findFCDAs] throws on the missing
    snapshot. The component is then left as it was, snapshots included. *)
Theorem modifyAdditionalExtRefs_throws event this :
  outcome (modifyAdditionalExtRefs event this).2 = Thrown →
  (modifyAdditionalExtRefs event this).1 = this
  ∧ enabled this = true
  ∧ findFCDAs_null = Thrown
  ∧ ∃ i element attributes,
      flat [detail event] !! i = Some (Update element attributes)
      ∧ tagName element = "ExtRef"
      ∧ manufacturer element = Some "NRR"
      ∧ mjoin (preEventExtRef this !! i) = None
      ∧ isSubscribed element = false.
Proof.
  unfold Plugin.modifyAdditionalExtRefs.
  destruct (enabled this); cbn [negb]; [|done].
  destruct (outcome (forEach _ _)) as [[]|] eqn:Hloop; cbn [fst snd];
    rewrite Hloop; [done|]. intros _.
  repeat (split; [done|]).
  apply forEach_from_thrown in Hloop as (i & edit & Hi & Hthrown).
  destruct edit as [| element attributes | |]; try done. simpl in Hthrown.
  destruct (String.eqb_spec (tagName element) "ExtRef") as [Htag|]; [|done].
  destruct (strict_eq (manufacturer element) (Some "NRR")) eqn:Hnrr; [|done].
  apply PairingFacts.strict_eq_true in Hnrr. simpl in Hthrown.
  destruct (mjoin (preEventExtRef this !! i)) as [prior|] eqn:Hprior.
  { by rewrite PluginFacts.processNRExtRef_returns in Hthrown. }
  destruct (isSubscribed element) eqn:Hnow.
  { unfold Plugin.processNRExtRef in Hthrown. rewrite Hnow in Hthrown.
    cbn [negb andb] in Hthrown. rewrite outcome_bind in Hthrown.
    cbn [call_findFCDAs outcome] in Hthrown.
    destruct (_ ≫= head); [|done].
    by rewrite PluginFacts.modifyValueAndQualityPair_returns in Hthrown. }
  split; [|by exists i, element, attributes].
  unfold Plugin.processNRExtRef in Hthrown. rewrite Hnow in Hthrown.
  cbn [negb andb from_option] in Hthrown. rewrite outcome_bind in Hthrown.
  cbn [call_findFCDAs outcome] in Hthrown.
  destruct findFCDAs_null as [fcdas|]; [|done].
  destruct (fcdas ≫= head); [|done].
  by rewrite PluginFacts.modifyValueAndQualityPair_returns in Hthrown.
Qed.

(** X19: only updates of ExtRef elements count. A notification without
    one (insertions, removals, updates of other elements, however nested)
    leaves nothing but [null] snapshots and draws no lookup and no
    dispatch from an enabled component. *)
Theorem only_ExtRef_updates_matter event this :
  Forall (λ edit, updatesExtRef edit = false) (flat [detail event]) →
  (shouldListen event = true →
   Forall (λ entry, entry = None) (preEventExtRef (captureMetadata event this)))
  ∧ (modifyAdditionalExtRefs event this).2 = mret tt.
Proof.
  intros Hnone. split.
  - intros Hlisten. rewrite (PluginFacts.captureMetadata_open _ _ Hlisten).
    cbn [preEventExtRef]. change (map snapshot ?l) with (snapshot <$> l).
    apply Forall_fmap. eapply Forall_impl; [exact Hnone|].
    intros edit Hedit. simpl. by rewrite PluginFacts.snapshot_updatesExtRef, Hedit.
  - unfold Plugin.modifyAdditionalExtRefs.
    destruct (enabled this); cbn [negb]; [|done].
    assert (forEach (reactTo processNRExtRef (preEventExtRef this)) (flat [detail event])
            = mret tt) as ->; [|done].
    apply forEach_from_skip. intros i edit Hi.
    pose proof (proj1 (Forall_lookup _ _) Hnone i edit Hi) as Hedit.
    destruct edit as [| element attributes | |]; try done.
    simpl in *. by rewrite Hedit.
Qed.

(** *** One update, from capture to reaction *)

Lemma bind_ret_tt (m : Run unit) : (m ;; mret tt) = m.
Proof.
  unfold mbind, Run_bind, mret, Run_ret. destruct m as [es [[]|]]; simpl; [|done].
  by rewrite app_nil_r.
Qed.

(** A listened notification made of one update of an NR ExtRef, on an
    enabled component: the round trip is [processNRExtRef] on the live
    element and the clone, and the component comes out reset. *)
Lemma roundTrip_one_update target element attributes element' attributes' this :
  shouldListen (mkEditEvent target (Update element attributes)) = true →
  enabled this = true →
  tagName element = "ExtRef" →
  tagName element' = "ExtRef" →
  manufacturer element' = Some "NRR" →
  roundTrip (mkEditEvent target (Update element attributes))
            (mkEditEvent target (Update element' attributes')) this
  = ({| enabled := true; preEventExtRef := []; ignoreSupervision := false |},
     processNRExtRef element' (Some (importNode element))).
Proof.
  intros Hlisten Hon Htag Htag' Hnrr.
  unfold Plugin.roundTrip, Plugin.onBubble, onCapture.
  change (shouldListen (mkEditEvent target (Update element' attributes')))
    with (shouldListen (mkEditEvent target (Update element attributes))).
  rewrite Hlisten, (PluginFacts.captureMetadata_open _ _ Hlisten).
  unfold Plugin.modifyAdditionalExtRefs. cbn [enabled preEventExtRef detail].
  rewrite Hon. cbn [negb].
  change (flat [Update element' attributes']) with [Update element' attributes'].
  change (flat [Update element attributes]) with [Update element attributes].
  unfold forEach. cbn [forEach_from map snapshot reactTo lookup list_lookup mjoin].
  rewrite Htag, Htag', Hnrr, PairingFacts.strict_eq_refl, String.eqb_refl.
  cbn [andb mjoin option_join].
  rewrite bind_ret_tt, PluginFacts.processNRExtRef_returns. done.
Qed.

(** X15: binding the first of a value/quality pair of an NR device. The
    ExtRef was not subscribed before the update and is after it, its
    first FCDA and its next sibling pair up with their next siblings, and
    the control block is found: the round trip dispatches one subscribe
    of the next ExtRef to the next FCDA with that control block, and
    nothing else. *)
Theorem subscribe_propagates
    target element attributes element' attributes' this
    firstFcda others nextExtRef nextFcda controlBlock :
  shouldListen (mkEditEvent target (Update element attributes)) = true →
  enabled this = true →
  tagName element = "ExtRef" →
  tagName element' = "ExtRef" →
  manufacturer element' = Some "NRR" →
  isSubscribed (importNode element) = false →
  isSubscribed element' = true →
  findFCDAs element' = firstFcda :: others →
  nextElementSibling element' = Some nextExtRef →
  nextElementSibling firstFcda = Some nextFcda →
  extRefMatchNR element' nextExtRef = true →
  isfcdaPairWithQuality firstFcda nextFcda = true →
  findControlBlock element' = Some controlBlock →
  roundTrip (mkEditEvent target (Update element attributes))
            (mkEditEvent target (Update element' attributes')) this
  = ({| enabled := true; preEventExtRef := []; ignoreSupervision := false |},
     mkRun [FindFCDAs (Some element');
            DispatchEvent (subscribe nextExtRef nextFcda controlBlock)]
           (Returned tt)).
Proof.
  intros Hlisten Hon Htag Htag' Hnrr Hwas Hnow Hfcdas HE HF HmE HmF Hcb.
  rewrite (roundTrip_one_update _ _ _ _ _ _ Hlisten Hon Htag Htag' Hnrr). f_equal.
  unfold Plugin.processNRExtRef. rewrite Hnow. cbn [negb andb].
  unfold mbind at 1, Run_bind at 1, call_findFCDAs. cbn [outcome effects].
  rewrite Hfcdas. cbn [mbind option_bind head].
  rewrite (PluginFacts.modifyValueAndQualityPair_pair _ _ _ _ _ _ _ HE HF HmE HmF).
  unfold Plugin.wasSubscribed. cbn [from_option]. rewrite Hwas, Hnow, Hcb. done.
Qed.

(** X16: unbinding it. The ExtRef was subscribed before the update and is
    not after it, the first FCDA of the snapshot and the live ExtRef pair
    up with their next siblings: the round trip dispatches one
    unsubscribe of the next ExtRef and nothing else, whether a control
    block is found or not. *)
Theorem unsubscribe_propagates
    target element attributes element' attributes' this
    firstFcda others nextExtRef nextFcda :
  shouldListen (mkEditEvent target (Update element attributes)) = true →
  enabled this = true →
  tagName element = "ExtRef" →
  tagName element' = "ExtRef" →
  manufacturer element' = Some "NRR" →
  isSubscribed (importNode element) = true →
  isSubscribed element' = false →
  findFCDAs (importNode element) = firstFcda :: others →
  nextElementSibling element' = Some nextExtRef →
  nextElementSibling firstFcda = Some nextFcda →
  extRefMatchNR element' nextExtRef = true →
  isfcdaPairWithQuality firstFcda nextFcda = true →
  roundTrip (mkEditEvent target (Update element attributes))
            (mkEditEvent target (Update element' attributes')) this
  = ({| enabled := true; preEventExtRef := []; ignoreSupervision := false |},
     mkRun [FindFCDAs (Some (importNode element));
            DispatchEvent (unsubscribe [nextExtRef])]
           (Returned tt)).
Proof.
  intros Hlisten Hon Htag Htag' Hnrr Hwas Hnow Hfcdas HE HF HmE HmF.
  rewrite (roundTrip_one_update _ _ _ _ _ _ Hlisten Hon Htag Htag' Hnrr). f_equal.
  unfold Plugin.processNRExtRef. rewrite Hnow. cbn [from_option]. rewrite Hwas.
  cbn [negb andb].
  unfold mbind at 1, Run_bind at 1, call_findFCDAs. cbn [outcome effects].
  rewrite Hfcdas. cbn [mbind option_bind head].
  rewrite (PluginFacts.modifyValueAndQualityPair_pair _ _ _ _ _ _ _ HE HF HmE HmF).
  unfold Plugin.wasSubscribed. cbn [from_option]. rewrite Hwas, Hnow.
  by destruct (findControlBlock element').
Qed.

End Methods.

End PluginMore.

(** ** The settings dialog *)

Module SettingsFacts.
Import Dom Pairing Plugin Settings.

Lemma construct_insert b (store : gmap string string) :
  enabled (construct (<[storageKey := template b]> store)) = b.
Proof.
  unfold construct. cbn [enabled]. rewrite lookup_insert_eq. by destruct b.
Qed.

(** X17: what Close stores is what the next construction reads: a
    component built from the store left by [onClose] has the [enabled]
    the handler set. The handler touches no other key of the store and
    neither of the two capture fields, and pressing Close twice is
    pressing it once. *)
Theorem onClose_persists enabledUI page :
  let page' := onClose enabledUI page in
  enabled (construct (localStorage page')) = enabled (component page')
  ∧ (∀ key, key ≠ storageKey → localStorage page' !! key = localStorage page !! key)
  ∧ preEventExtRef (component page') = preEventExtRef (component page)
  ∧ ignoreSupervision (component page') = ignoreSupervision (component page)
  ∧ onClose enabledUI page' = page'.
Proof.
  unfold onClose. cbn [localStorage component enabled preEventExtRef
                       ignoreSupervision dialogUI].
  repeat split.
  - apply construct_insert.
  - intros key Hkey. by rewrite lookup_insert_ne.
  - rewrite insert_insert_eq. by destruct (dialogUI page).
Qed.

(** X18: unless the store holds exactly [true] under the component's key
    (no entry, [false], or any other text), the component is built
    disabled and no notification makes it dispatch anything. *)
Theorem built_disabled_stays_silent
    isSubscribed findFCDAs findControlBlock findFCDAs_null
    (store : gmap string string) before after :
  store !! storageKey ≠ Some "true" →
  enabled (construct store) = false
  ∧ (roundTrip isSubscribed findFCDAs findControlBlock findFCDAs_null
       before after (construct store)).2 = mret tt.
Proof.
  intros Hoff.
  assert (enabled (construct store) = false) as Hen
    by by apply PairingFacts.strict_eq_false.
  split; [done|].
  unfold roundTrip, onBubble, onCapture.
  destruct (shouldListen after); [|done].
  rewrite PluginFacts.modifyAdditionalExtRefs_disabled; [done|].
  unfold captureMetadata. by destruct (shouldListen before).
Qed.

End SettingsFacts.

(** ** The further properties on the small substation *)

Module OnSubstationMore.
Import Dom Pairing Plugin Settings Substation.

Lemma isfcdaPairWithQuality_differ_witness :
  isfcdaPairWithQuality (fcdaA docBound)
    (detached (Node "FCDA" (list_to_map [("ldInst", "LD1"); ("daName", "q")]) []))
  = false.
Proof.
  apply (PairingMore.isfcdaPairWithQuality_differ _ _ "ldInst");
    [repeat constructor | vm_compute; discriminate].
Defined.

Lemma isfcdaPairWithQuality_agree_witness :
  isfcdaPairWithQuality (fcdaA docBound) (detached (fcda "stVal")) = true.
Proof.
  apply (PairingMore.isfcdaPairWithQuality_agree (fcdaA docBound) (detached (fcda "stVal"))).
  intros attr Hin. unfold addressing in Hin.
  repeat (apply elem_of_cons in Hin as [->|Hin]; [vm_compute; reflexivity|]).
  by apply elem_of_nil in Hin.
Defined.

Lemma modifyValueAndQualityPair_targets_witness :
  ∃ nextExtRef nextFcda,
    nextElementSibling (extRefA docFree) = Some nextExtRef
    ∧ nextElementSibling (fcdaA docBound) = Some nextFcda
    ∧ parentElement nextExtRef = parentElement (extRefA docFree)
    ∧ extRefMatchNR (extRefA docFree) nextExtRef = true
    ∧ isfcdaPairWithQuality (fcdaA docBound) nextFcda = true
    ∧ ((∃ controlBlock,
          noControlBlock (extRefA docFree) = Some controlBlock
          ∧ unsubscribe [extRefB docFree] = subscribe nextExtRef nextFcda controlBlock)
       ∨ unsubscribe [extRefB docFree] = unsubscribe [nextExtRef]).
Proof.
  apply (PluginMore.modifyValueAndQualityPair_targets isSubscribed noControlBlock
           (extRefA docFree) (Some priorBound) (fcdaA docBound)).
  assert (dispatched (modifyValueAndQualityPair isSubscribed noControlBlock
                        (extRefA docFree) (Some priorBound) (fcdaA docBound))
          = [unsubscribe [extRefB docFree]]) as -> by (vm_compute; reflexivity).
  constructor.
Defined.

Lemma processNRExtRef_unchanged_witness :
  dispatched (processNRExtRef isSubscribed findFCDAs findControlBlock Thrown
                (extRefA docBound) (Some priorBound)) = [].
Proof.
  apply (PluginMore.processNRExtRef_unchanged isSubscribed findFCDAs findControlBlock
           Thrown (extRefA docBound) (Some priorBound)).
  vm_compute. reflexivity.
Defined.

Lemma processNRExtRef_no_fcda_witness :
  processNRExtRef isSubscribed (λ _, []) findControlBlock Thrown
    (extRefA docFree) (Some priorBound)
  = mkRun [FindFCDAs (Some priorBound)] (Returned tt).
Proof.
  apply (PluginMore.processNRExtRef_no_fcda isSubscribed (λ _, []) findControlBlock
           Thrown (extRefA docFree) priorBound);
    [right; vm_compute; reflexivity | reflexivity].
Defined.

Lemma captureMetadata_array_witness :
  preEventExtRef (captureMetadata subscribeBefore (idle true))
  = [Complex [Remove (gseOf docFree)]; Update (extRefA docFree) binding]
    ≫= λ edit, preEventExtRef
                 (captureMetadata (mkEditEvent (Some laterBinding) edit) (idle true)).
Proof.
  apply (PluginMore.captureMetadata_array (Some laterBinding)
           [Complex [Remove (gseOf docFree)]; Update (extRefA docFree) binding]
           (idle true)).
  vm_compute. reflexivity.
Defined.

Lemma snapshots_stand_alone_witness :
  tagName (importNode (extRefA docFree)) = "ExtRef"
  ∧ parentElement (importNode (extRefA docFree)) = None
  ∧ nextElementSibling (importNode (extRefA docFree)) = None
  ∧ manufacturer (importNode (extRefA docFree)) = None
  ∧ ∃ element attributes,
      Update element attributes ∈ flat [detail subscribeBefore]
      ∧ importNode (extRefA docFree) = importNode element.
Proof.
  apply (PluginMore.snapshots_stand_alone subscribeBefore (idle true)
           (importNode (extRefA docFree))); [reflexivity|].
  assert (preEventExtRef (captureMetadata subscribeBefore (idle true))
          = [None; Some (importNode (extRefA docFree))]) as ->
    by (vm_compute; reflexivity).
  repeat constructor.
Defined.

Lemma not_listened_no_effect_witness :
  roundTrip isSubscribed findFCDAs findControlBlock Thrown
    (mkEditEvent (Some laterBindingClosed) (Update (extRefA docFree) binding))
    (mkEditEvent (Some laterBindingClosed) (Update (extRefA docBound) binding))
    (idle true)
  = (idle true, mret tt).
Proof.
  apply (PluginMore.not_listened_no_effect isSubscribed findFCDAs findControlBlock Thrown);
    [reflexivity|].
  right. exists laterBindingClosed. split; [reflexivity|].
  right. vm_compute. reflexivity.
Defined.

Lemma reaction_gets_its_snapshot_witness :
  reactTo (processNRExtRef isSubscribed findFCDAs findControlBlock Thrown)
          (preEventExtRef (captureMetadata subscribeBefore (idle true)))
          (Update (extRefA docBound) binding) 1
  = processNRExtRef isSubscribed findFCDAs findControlBlock Thrown
      (extRefA docBound) (Some (importNode (extRefA docFree))).
Proof.
  apply (PluginMore.reaction_gets_its_snapshot _ subscribeBefore (idle true) 1
           (extRefA docFree) binding (extRefA docBound) binding);
    vm_compute; reflexivity.
Defined.

Lemma modifyAdditionalExtRefs_throws_witness :
  (modifyAdditionalExtRefs isSubscribed findFCDAs findControlBlock Thrown
     (mkEditEvent (Some laterBinding) (Update (extRefA docFree) unbinding))
     (idle true)).1 = idle true.
Proof.
  apply (PluginMore.modifyAdditionalExtRefs_throws isSubscribed findFCDAs
           findControlBlock Thrown).
  vm_compute. reflexivity.
Defined.

Lemma subscribe_propagates_witness :
  roundTrip isSubscribed findFCDAs findControlBlock Thrown
    (mkEditEvent (Some laterBinding) (Update (extRefA docFree) binding))
    (mkEditEvent (Some laterBinding) (Update (extRefA docBound) binding))
    (idle true)
  = ({| enabled := true; preEventExtRef := []; ignoreSupervision := false |},
     mkRun [FindFCDAs (Some (extRefA docBound));
            DispatchEvent (subscribe (extRefB docBound) (fcdaB docBound) (gseOf docBound))]
           (Returned tt)).
Proof.
  apply (PluginMore.subscribe_propagates isSubscribed findFCDAs findControlBlock Thrown
           (Some laterBinding) (extRefA docFree) binding (extRefA docBound) binding
           (idle true) (fcdaA docBound) []);
    vm_compute; reflexivity.
Defined.

Lemma unsubscribe_propagates_witness :
  roundTrip isSubscribed findFCDAs noControlBlock Thrown
    (mkEditEvent (Some laterBinding) (Update (extRefA docBound) unbinding))
    (mkEditEvent (Some laterBinding) (Update (extRefA docFree) unbinding))
    (idle true)
  = ({| enabled := true; preEventExtRef := []; ignoreSupervision := false |},
     mkRun [FindFCDAs (Some priorBound);
            DispatchEvent (unsubscribe [extRefB docFree])]
           (Returned tt)).
Proof.
  apply (PluginMore.unsubscribe_propagates isSubscribed findFCDAs noControlBlock Thrown
           (Some laterBinding) (extRefA docBound) unbinding (extRefA docFree) unbinding
           (idle true) (fcdaA docBound) [] (extRefB docFree) (fcdaB docBound));
    vm_compute; reflexivity.
Defined.

Lemma built_disabled_stays_silent_witness :
  enabled (construct {[ storageKey := "TRUE" ]}) = false
  ∧ (roundTrip isSubscribed findFCDAs findControlBlock Thrown
       subscribeBefore subscribeAfter (construct {[ storageKey := "TRUE" ]})).2
    = mret tt.
Proof.
  apply (SettingsFacts.built_disabled_stays_silent
           isSubscribed findFCDAs findControlBlock Thrown {[ storageKey := "TRUE" ]}).
  vm_compute. discriminate.
Defined.

Lemma only_ExtRef_updates_matter_witness :
  (modifyAdditionalExtRefs isSubscribed findFCDAs findControlBlock Thrown
     (mkEditEvent (Some laterBinding)
        (Complex [Remove (gseOf docBound);
                  Complex [Update (fcdaA docBound) binding;
                           Insert (extRefA docBound) (extRefB docBound) None]]))
     (idle true)).2 = mret tt.
Proof.
  apply (PluginMore.only_ExtRef_updates_matter isSubscribed findFCDAs findControlBlock
           Thrown).
  repeat constructor.
Defined.

End OnSubstationMore.
